(** * neo4j_manager: connection facade, health monitor and backup helper

    A shallow embedding of [src/neo4j_manager/connection.py],
    [health_check.py] and [backup.py].

    The Python methods are written in a state-and-exception monad over a
    [World]: the [Neo4jConnection] object, a counter of the calls made to
    the outside (driver, server, clock, filesystem), the wall clock and
    the trace of those calls.  What the outside answers is an [Env]: a
    family of functions indexed by the call counter, so that a server may
    answer differently each time it is asked. *)

From Stdlib Require Import ZArith QArith Ascii.
From stdpp Require Import gmap strings list sorting.

Local Open Scope string_scope.
Local Open Scope list_scope.
Local Open Scope Z_scope.

(** ** Values, rows and exceptions *)

#[local] Set Warnings "-register-all".

(** The dynamically typed values of a result row.  Floats are kept as
    rationals: only their sign is ever inspected. *)
Inductive Value :=
| VNull
| VBool (b : bool)
| VInt (z : Z)
| VFloat (q : Q)
| VStr (s : string)
| VList (l : list Value).

(** [dict(record)]: a row is a dict from column name to value. *)
Abbreviation Row := (gmap string Value).

(** The exception classes the code names or that its own expressions
    raise; every one of them is a subclass of [Exception]. *)
Inductive ExcKind :=
| ServiceUnavailable
| AuthError
| FileNotFoundError
| KeyError
| TypeError
| ValueError
| OtherException (cls : string).

Record Exc := mkExc { kind : ExcKind; message : string }.

Definition is_ServiceUnavailable (e : Exc) : bool :=
  match kind e with ServiceUnavailable => true | _ => false end.

Definition is_AuthError (e : Exc) : bool :=
  match kind e with AuthError => true | _ => false end.

(** ** The outside world *)

(** A driver handle is known by its identity. *)
Definition Handle := nat.

Inductive Level := LDebug | LInfo | LWarning | LError.

Inductive Event :=
| EvDriver (uri user pw : string) (r : Exc + Handle)
| EvVerify (h : Handle) (r : option Exc)
| EvClose (h : Handle)
| EvRun (h : Handle) (query : string) (params : Row)
| EvWrite (h : Handle) (query : string) (params : Row)
| EvTime (t : Z)
| EvSleep (secs : Z)
| EvNow
| EvLog (lvl : Level).

Record Env := mkEnv {
  (** [GraphDatabase.driver(uri, auth=(user, pw))] *)
  graph_driver : nat -> string -> string -> string -> Exc + Handle;
  (** [driver.verify_connectivity()]; [None] is a normal return *)
  verify_connectivity : nat -> Handle -> option Exc;
  (** [with driver.session() as s: [dict(r) for r in s.run(q, p)]] *)
  session_run : nat -> Handle -> string -> Row -> Exc + list Row;
  (** the same inside [session.execute_write] *)
  session_execute_write : nat -> Handle -> string -> Row -> Exc + list Row;
  (** time taken by the call with this number *)
  op_delay : nat -> Z;
  (** time taken by [time.sleep(secs)] when it is the call with this number *)
  sleep_delay : nat -> Z -> Z;
  (** [os.path.exists] *)
  path_exists : string -> bool;
  (** [datetime.now().strftime("%Y%m%d_%H%M%S")] *)
  strftime_now : nat -> string;
  (** [str(Path(dir) / name)] *)
  path_join : string -> string -> string
}.

Record Neo4jConnection := mkConn {
  uri : string;
  username : string;
  password : string;
  _driver : option Handle
}.

(** [Neo4jConnection.__init__] *)
Definition Neo4jConnection_init (u n p : string) : Neo4jConnection :=
  {| uri := u; username := n; password := p; _driver := None |}.

(** [tick] counts the calls made to the outside so far; [now] is the
    wall clock, in the unit in which [timeout] and [interval] are given. *)
Record World := mkWorld {
  connection : Neo4jConnection;
  tick : nat;
  now : Z;
  trace : list Event
}.

Definition set_driver (d : option Handle) (w : World) : World :=
  {| connection := {| uri := uri (connection w);
                      username := username (connection w);
                      password := password (connection w);
                      _driver := d |};
     tick := tick w; now := now w; trace := trace w |}.

(** One call to the outside: it takes [dt], is counted and is recorded. *)
Definition emit (ev : Event) (dt : Z) (w : World) : World :=
  {| connection := connection w;
     tick := S (tick w);
     now := now w + dt;
     trace := trace w ++ [ev] |}.

Definition record (ev : Event) (w : World) : World :=
  {| connection := connection w; tick := tick w; now := now w;
     trace := trace w ++ [ev] |}.

(** ** The monad of the methods *)

Inductive Outcome (A : Type) :=
| Return (a : A)
| Raise (e : Exc).
Arguments Return {A} a.
Arguments Raise {A} e.

Definition M (A : Type) : Type := World -> Outcome A * World.

Definition ret {A} (a : A) : M A := fun w => (Return a, w).
Definition raise {A} (e : Exc) : M A := fun w => (Raise e, w).

Definition bind {A B} (c : M A) (k : A -> M B) : M B :=
  fun w => match c w with
           | (Return a, w') => k a w'
           | (Raise e, w') => (Raise e, w')
           end.

(** [try: c  except ...: h e] ; a handler that does not match re-raises. *)
Definition try_except {A} (c : M A) (h : Exc -> M A) : M A :=
  fun w => match c w with
           | (Return a, w') => (Return a, w')
           | (Raise e, w') => h e w'
           end.

Notation "'let*' x ':=' c 'in' k" := (bind c (fun x => k))
  (at level 10, x name, c at level 100, k at level 200).
Notation "c ';;' k" := (bind c (fun _ => k))
  (at level 100, k at level 200, right associativity).

Section Program.

Variable env : Env.

(** *** Calls to the outside *)

Definition GraphDatabase_driver (u n p : string) : M Handle :=
  fun w =>
    let r := graph_driver env (tick w) u n p in
    let w' := emit (EvDriver u n p r) (op_delay env (tick w)) w in
    match r with
    | inr h => (Return h, w')
    | inl e => (Raise e, w')
    end.

Definition driver_verify_connectivity (h : Handle) : M unit :=
  fun w =>
    let r := verify_connectivity env (tick w) h in
    let w' := emit (EvVerify h r) (op_delay env (tick w)) w in
    match r with
    | None => (Return tt, w')
    | Some e => (Raise e, w')
    end.

Definition driver_close (h : Handle) : M unit :=
  fun w => (Return tt, emit (EvClose h) (op_delay env (tick w)) w).

Definition session_run_read (h : Handle) (q : string) (p : Row) : M (list Row) :=
  fun w =>
    let w' := emit (EvRun h q p) (op_delay env (tick w)) w in
    match session_run env (tick w) h q p with
    | inr rows => (Return rows, w')
    | inl e => (Raise e, w')
    end.

Definition session_run_write (h : Handle) (q : string) (p : Row) : M (list Row) :=
  fun w =>
    let w' := emit (EvWrite h q p) (op_delay env (tick w)) w in
    match session_execute_write env (tick w) h q p with
    | inr rows => (Return rows, w')
    | inl e => (Raise e, w')
    end.

(** [time.time()]: the reading is taken when the call returns. *)
Definition time_time : M Z :=
  fun w =>
    let t := now w + op_delay env (tick w) in
    (Return t, emit (EvTime t) (op_delay env (tick w)) w).

(** [time.sleep(secs)] refuses a negative length. *)
Definition time_sleep (secs : Z) : M unit :=
  fun w =>
    if secs <? 0
    then (Raise (mkExc ValueError "sleep length must be non-negative"), w)
    else (Return tt, emit (EvSleep secs) (sleep_delay env (tick w) secs) w).

Definition datetime_now_strftime : M string :=
  fun w => (Return (strftime_now env (tick w)),
            emit EvNow (op_delay env (tick w)) w).

Definition os_path_exists (p : string) : M bool :=
  fun w => (Return (path_exists env p), w).

Definition log (lvl : Level) : M unit :=
  fun w => (Return tt, record (EvLog lvl) w).

Definition get_driver : M (option Handle) :=
  fun w => (Return (_driver (connection w)), w).

Definition put_driver (d : option Handle) : M unit :=
  fun w => (Return tt, set_driver d w).

Definition get_conn : M Neo4jConnection :=
  fun w => (Return (connection w), w).

(** *** connection.py *)

(** [Neo4jConnection.connect] *)
Definition connect : M Handle :=
  try_except
    (let* c := get_conn in
     let* h := GraphDatabase_driver (uri c) (username c) (password c) in
     put_driver (Some h) ;;
     driver_verify_connectivity h ;;
     log LInfo ;;
     ret h)
    (fun e =>
       if is_ServiceUnavailable e then log LError ;; raise e
       else if is_AuthError e then log LError ;; raise e
       else raise e).

(** [Neo4jConnection.close] *)
Definition close : M unit :=
  let* d := get_driver in
  match d with
  | Some h => driver_close h ;; log LInfo ;; put_driver None
  | None => ret tt
  end.

(** the [driver] property *)
Definition driver : M Handle :=
  let* d := get_driver in
  match d with
  | None => connect
  | Some h => ret h
  end.

(** [parameters or {}] *)
Definition params_or_empty (p : option Row) : Row := default ∅ p.

(** [Neo4jConnection.execute_query] *)
Definition execute_query (q : string) (p : option Row) : M (list Row) :=
  let* h := driver in
  session_run_read h q (params_or_empty p).

(** [Neo4jConnection.execute_write] *)
Definition execute_write (q : string) (p : option Row) : M (list Row) :=
  let* h := driver in
  session_run_write h q (params_or_empty p).

(** [row[key]] on a dict *)
Definition getitem (r : Row) (key : string) : M Value :=
  match r !! key with
  | Some v => ret v
  | None => raise (mkExc KeyError ("'" +:+ key +:+ "'"))
  end.

(** [result[0][key] if result else dflt] *)
Definition first_or (result : list Row) (key : string) (dflt : Value) : M Value :=
  match result with
  | r :: _ => getitem r key
  | [] => ret dflt
  end.

(** [Neo4jConnection.get_node_count] *)
Definition get_node_count : M Value :=
  let* result := execute_query "MATCH (n) RETURN count(n) as count" None in
  first_or result "count" (VInt 0).

(** [Neo4jConnection.get_relationship_count] *)
Definition get_relationship_count : M Value :=
  let* result := execute_query "MATCH ()-[r]->() RETURN count(r) as count" None in
  first_or result "count" (VInt 0).

(** [Neo4jConnection.clear_database] *)
Definition clear_database : M unit :=
  log LWarning ;;
  execute_write "MATCH (n) DETACH DELETE n" None ;;
  ret tt.

End Program.

(** ** A local variable next to the world

    [full_health_check] fills a local dict step by step, and what was
    filled before an exception is what it returns.  [L S] threads the
    local value of type [S] through the method's body, also when the
    body raises. *)

Definition L (S A : Type) : Type := S -> World -> Outcome A * S * World.

Definition retL {S A} (a : A) : L S A := fun s w => (Return a, s, w).

Definition bindL {S A B} (c : L S A) (k : A -> L S B) : L S B :=
  fun s w => match c s w with
             | (Return a, s', w') => k a s' w'
             | (Raise e, s', w') => (Raise e, s', w')
             end.

Definition lift {S A} (c : M A) : L S A :=
  fun s w => let (r, w') := c w in (r, s, w').

Definition readL {S} : L S S := fun s w => (Return s, s, w).

Definition assign {S} (f : S -> S) : L S unit := fun s w => (Return tt, f s, w).

(** [try: c  except Exception as e: h e] *)
Definition try_exceptL {S A} (c : L S A) (h : Exc -> L S A) : L S A :=
  fun s w => match c s w with
             | (Return a, s', w') => (Return a, s', w')
             | (Raise e, s', w') => h e s' w'
             end.

(** the body of a method whose local starts as [s0] *)
Definition with_local {S A} (s0 : S) (c : L S A) : M A :=
  fun w => let '(r, _, w') := c s0 w in (r, w').

Notation "'let+' x ':=' c 'in' k" := (bindL c (fun x => k))
  (at level 10, x name, c at level 100, k at level 200).
Notation "c ';+' k" := (bindL c (fun _ => k))
  (at level 100, k at level 200, right associativity).

(** ** health_check.py *)

(** The dict built by [full_health_check]; the key ["error"] is absent
    until an exception is caught. *)
Record HealthReport := mkHealth {
  connected : bool;
  apoc_available : bool;
  version : Value;
  stats : gmap string Value;
  error : option string
}.

Definition set_connected (b : bool) (h : HealthReport) : HealthReport :=
  mkHealth b (apoc_available h) (version h) (stats h) (error h).
Definition set_apoc_available (b : bool) (h : HealthReport) : HealthReport :=
  mkHealth (connected h) b (version h) (stats h) (error h).
Definition set_version (v : Value) (h : HealthReport) : HealthReport :=
  mkHealth (connected h) (apoc_available h) v (stats h) (error h).
Definition set_stats (s : gmap string Value) (h : HealthReport) : HealthReport :=
  mkHealth (connected h) (apoc_available h) (version h) s (error h).
Definition set_error (e : string) (h : HealthReport) : HealthReport :=
  mkHealth (connected h) (apoc_available h) (version h) (stats h) (Some e).

Definition type_name (v : Value) : string :=
  match v with
  | VNull => "NoneType"
  | VBool _ => "bool"
  | VInt _ => "int"
  | VFloat _ => "float"
  | VStr _ => "str"
  | VList _ => "list"
  end.

(** [v > 0] *)
Definition gt_zero (v : Value) : M bool :=
  match v with
  | VBool b => ret b
  | VInt z => ret (0 <? z)
  | VFloat q => ret (0 <? Qnum q)
  | _ => raise (mkExc TypeError
           ("'>' not supported between instances of '" +:+ type_name v
            +:+ "' and 'int'"))
  end.

Section Health.

Variable env : Env.

(** [HealthChecker.check_connectivity] *)
Definition check_connectivity : M bool :=
  try_except
    (let* h := driver env in
     driver_verify_connectivity env h ;;
     ret true)
    (fun e => if is_ServiceUnavailable e then ret false else raise e).

(** [HealthChecker.check_apoc_available] *)
Definition check_apoc_available : M bool :=
  try_except
    (let* result := execute_query env
        "CALL apoc.help('version') YIELD name RETURN count(name) as count" None in
     match result with
     | r :: _ => let* v := getitem r "count" in gt_zero v
     | [] => ret false
     end)
    (fun e => log LError ;; ret false).

(** [HealthChecker.get_version] *)
Definition get_version : M Value :=
  let* result := execute_query env
      "CALL dbms.components() YIELD versions RETURN versions[0] as version" None in
  first_or result "version" (VStr "unknown").

(** [HealthChecker.get_database_stats] *)
Definition get_database_stats : M (gmap string Value) :=
  let* node_count := get_node_count env in
  let* rel_count := get_relationship_count env in
  let* labels_result := execute_query env
      "CALL db.labels() YIELD label RETURN collect(label) as labels" None in
  let* labels := first_or labels_result "labels" (VList []) in
  ret (<["node_count" := node_count]>
       (<["relationship_count" := rel_count]>
        (<["labels" := labels]> ∅))).

(** The [while] loop of [wait_for_ready]; [fuel] bounds the number of
    times its body runs and [None] says that the bound was reached. *)
Fixpoint wait_loop (fuel : nat) (start_time timeout interval : Z)
  : M (option bool) :=
  let* t := time_time env in
  if t - start_time <? timeout then
    match fuel with
    | O => ret None
    | S fuel' =>
        let* ok := check_connectivity in
        if ok then log LInfo ;; ret (Some true)
        else
          let* t' := time_time env in
          log LDebug ;;
          time_sleep env interval ;;
          wait_loop fuel' start_time timeout interval
    end
  else log LError ;; ret (Some false).

(** [HealthChecker.wait_for_ready] *)
Definition wait_for_ready (fuel : nat) (timeout interval : Z) : M (option bool) :=
  let* start_time := time_time env in
  wait_loop fuel start_time timeout interval.

Definition default_health : HealthReport :=
  {| connected := false; apoc_available := false;
     version := VStr "unknown"; stats := ∅; error := None |}.

(** [HealthChecker.full_health_check] *)
Definition full_health_check : M HealthReport :=
  with_local default_health
    (try_exceptL
       (let+ c := lift check_connectivity in
        assign (set_connected c) ;+
        let+ health := readL in
        if connected health then
          let+ a := lift check_apoc_available in
          assign (set_apoc_available a) ;+
          let+ v := lift get_version in
          assign (set_version v) ;+
          let+ s := lift get_database_stats in
          assign (set_stats s)
        else retL tt)
       (fun e => lift (log LError) ;+ assign (set_error (message e))) ;+
     readL).

End Health.

(** ** Strings and paths *)

Definition nl : string := String (Ascii.ascii_of_nat 10) "".

(** [s.startswith(p)] *)
Fixpoint startswith (p s : string) : bool :=
  match p, s with
  | EmptyString, _ => true
  | String a p', String b s' => if Ascii.eqb a b then startswith p' s' else false
  | String _ _, EmptyString => false
  end.

(** [s.replace(old, new)] for a non-empty [old]: the occurrences of [old]
    are found from the left and do not overlap; [skip] counts the
    characters of the occurrence being dropped. *)
Fixpoint replace_from (old new : string) (skip : nat) (s : string) : string :=
  match s with
  | EmptyString => EmptyString
  | String c s' =>
      match skip with
      | S k => replace_from old new k s'
      | O =>
          if startswith old s
          then new +:+ replace_from old new (Nat.pred (String.length old)) s'
          else String c (replace_from old new O s')
      end
  end.

Definition str_replace (old new s : string) : string := replace_from old new O s.

(** [p.rfind("/")]: the index of the last slash, or -1 *)
Fixpoint rfind_slash (p : string) (i last : Z) : Z :=
  match p with
  | EmptyString => last
  | String c p' => rfind_slash p' (i + 1) (if Ascii.eqb c "/"%char then i else last)
  end.

(** [os.path.basename]: [i = p.rfind("/") + 1; return p[i:]] *)
Definition basename (p : string) : string :=
  let i := Z.to_nat (rfind_slash p 0 (-1) + 1) in
  String.substring i (String.length p - i)%nat p.

(** ** backup.py *)

Record BackupManager := mkBackup { backup_dir : string }.

(** [str(include_types).lower()] *)
Definition bool_lower (b : bool) : string := if b then "true" else "false".

(** the f-string of [export_to_graphml] *)
Definition export_query (filename_base : string) (include_types : bool) : string :=
  nl +:+ "        CALL apoc.export.graphml.all('" +:+ filename_base +:+ ".graphml', {"
  +:+ nl +:+ "            useTypes: " +:+ bool_lower include_types +:+ ","
  +:+ nl +:+ "            readLabels: true,"
  +:+ nl +:+ "            storeNodeIds: false"
  +:+ nl +:+ "        })"
  +:+ nl +:+ "        YIELD file, nodes, relationships, time"
  +:+ nl +:+ "        RETURN file, nodes, relationships, time"
  +:+ nl +:+ "        ".

(** the f-string of [import_from_graphml] *)
Definition import_query (filename : string) : string :=
  nl +:+ "        CALL apoc.import.graphml('file:///" +:+ filename +:+ "', {"
  +:+ nl +:+ "            readLabels: true,"
  +:+ nl +:+ "            storeNodeIds: false,"
  +:+ nl +:+ "            defaultRelationshipType: 'RELATED',"
  +:+ nl +:+ "            batchSize: 1000,"
  +:+ nl +:+ "            useTypes: false"
  +:+ nl +:+ "        })"
  +:+ nl +:+ "        YIELD nodes, relationships, time"
  +:+ nl +:+ "        RETURN nodes, relationships, time"
  +:+ nl +:+ "        ".

Section Backup.

Variable env : Env.
Variable self : BackupManager.

(** [BackupManager.create_backup_filename] *)
Definition create_backup_filename (prefix : string) : M string :=
  let* timestamp := datetime_now_strftime env in
  ret (prefix +:+ "_" +:+ timestamp +:+ ".graphml").

(** [filename.replace(".graphml", "")] *)
Definition filename_base_of (filename : string) : string :=
  str_replace ".graphml" "" filename.

(** [BackupManager.export_to_graphml] *)
Definition export_to_graphml (filename : option string) (include_types : bool)
  : M string :=
  let* filename :=
    match filename with
    | None => create_backup_filename "neo4j_backup"
    | Some f => ret f
    end in
  let filename_base := filename_base_of filename in
  let query := export_query filename_base include_types in
  try_except
    (let* result := execute_query env query None in
     match result with
     | r :: _ =>
         getitem r "nodes" ;;
         getitem r "relationships" ;;
         getitem r "time" ;;
         log LInfo
     | [] => ret tt
     end ;;
     ret (path_join env (backup_dir self) (filename_base +:+ ".graphml")))
    (fun e => log LError ;; raise e).

Definition zero_stats : gmap string Value :=
  <["nodes" := VInt 0]> (<["relationships" := VInt 0]> (<["time_ms" := VInt 0]> ∅)).

(** [BackupManager.import_from_graphml] *)
Definition import_from_graphml (filepath : string) (clear : bool)
  : M (gmap string Value) :=
  let* present := os_path_exists env filepath in
  if negb present
  then raise (mkExc FileNotFoundError ("Backup file not found: " +:+ filepath))
  else
    (if clear then log LWarning ;; clear_database env else ret tt) ;;
    let filename := basename filepath in
    let query := import_query filename in
    try_except
      (let* result := execute_query env query None in
       match result with
       | r :: _ =>
           let* n := getitem r "nodes" in
           let* m := getitem r "relationships" in
           let* t := getitem r "time" in
           let stats := <["nodes" := n]> (<["relationships" := m]>
                          (<["time_ms" := t]> ∅)) in
           log LInfo ;;
           ret stats
       | [] => ret zero_stats
       end)
      (fun e => log LError ;; raise e).

End Backup.

(** ** Concrete servers, used to run the methods *)

Definition unavailable : Exc := mkExc ServiceUnavailable "Connection failed".

Definition string_mem (s : string) (l : list string) : bool :=
  existsb (String.eqb s) l.

(** A server that is up or down for good, a clock on which only sleeping
    takes time, and a filesystem holding [files]. *)
Definition ideal_env (reachable : bool) (files : list string) : Env :=
  {| graph_driver := fun k _ _ _ => inr (S k);
     verify_connectivity := fun _ _ => if reachable then None else Some unavailable;
     session_run := fun _ _ _ _ => if reachable then inr [] else inl unavailable;
     session_execute_write :=
       fun _ _ _ _ => if reachable then inr [] else inl unavailable;
     op_delay := fun _ => 0;
     sleep_delay := fun _ secs => secs;
     path_exists := fun p => string_mem p files;
     strftime_now := fun _ => "20251026_143000";
     path_join := fun d n => d +:+ "/" +:+ n |}.

Definition world0 : World :=
  {| connection := Neo4jConnection_init "bolt://localhost:7687" "neo4j" "yourpassword";
     tick := O; now := 0; trace := [] |}.

(** A reachable server that answers the fixed queries of the health
    monitor and the import of [backup.graphml], and refuses the rest. *)
Definition scripted_run (q : string) : Exc + list Row :=
  if String.eqb q "CALL apoc.help('version') YIELD name RETURN count(name) as count"
  then inr [{["count" := VInt 1]}]
  else if String.eqb q
       "CALL dbms.components() YIELD versions RETURN versions[0] as version"
  then inr [{["version" := VStr "2025.09.0"]}]
  else if String.eqb q "MATCH (n) RETURN count(n) as count"
  then inr [{["count" := VInt 10]}]
  else if String.eqb q "MATCH ()-[r]->() RETURN count(r) as count"
  then inr [{["count" := VInt 5]}]
  else if String.eqb q "CALL db.labels() YIELD label RETURN collect(label) as labels"
  then inr [{["labels" := VList [VStr "Person"]]}]
  else if String.eqb q (import_query "backup.graphml")
  then inr [<["nodes" := VInt 100]> (<["relationships" := VInt 50]>
              {["time" := VInt 2000]})]
  else inl (mkExc (OtherException "ClientError") "Unknown procedure").

Definition scripted_env : Env :=
  {| graph_driver := fun k _ _ _ => inr (S k);
     verify_connectivity := fun _ _ => None;
     session_run := fun _ _ q _ => scripted_run q;
     session_execute_write := fun _ _ _ _ => inr [];
     op_delay := fun _ => 0;
     sleep_delay := fun _ secs => secs;
     path_exists := fun p => String.eqb p "/fake/path/backup.graphml";
     strftime_now := fun _ => "20251026_143000";
     path_join := fun d n => d +:+ "/" +:+ n |}.

(** A reachable server that rejects the credentials. *)
Definition auth_env : Env :=
  {| graph_driver := fun k _ _ _ => inr (S k);
     verify_connectivity := fun _ _ => Some (mkExc AuthError "Auth failed");
     session_run := fun _ _ _ _ => inl (mkExc AuthError "Auth failed");
     session_execute_write := fun _ _ _ _ => inl (mkExc AuthError "Auth failed");
     op_delay := fun _ => 0;
     sleep_delay := fun _ secs => secs;
     path_exists := fun _ => false;
     strftime_now := fun _ => "20251026_143000";
     path_join := fun d n => d +:+ "/" +:+ n |}.

(** ** What the handle has been through *)

(** The outcome of the last [verify_connectivity] on [h] in a trace. *)
Fixpoint last_verify (h : Handle) (tr : list Event) (seen : option (option Exc))
  : option (option Exc) :=
  match tr with
  | [] => seen
  | EvVerify h' r :: tr' =>
      last_verify h tr' (if Nat.eqb h h' then Some r else seen)
  | _ :: tr' => last_verify h tr' seen
  end.

(** The stored handle is absent, or its last verification succeeded. *)
Definition handle_verified (w : World) : bool :=
  match _driver (connection w) with
  | None => true
  | Some h =>
      match last_verify h (trace w) None with
      | Some None => true
      | _ => false
      end
  end.

(** ** What a check of reachability meets *)

(** What the reachability verification behind [check_connectivity] meets,
    read off the server's answers: with a stored handle, the answer to
    one [verify_connectivity]; without one, the answer to the creation of
    a driver, then to the verification inside [connect()], then to the
    verification of [check_connectivity] itself.  [None] says that
    nothing failed. *)
Definition reachability_failure (env : Env) (w : World) : option Exc :=
  let c := connection w in
  match _driver c with
  | Some h => verify_connectivity env (tick w) h
  | None =>
      match graph_driver env (tick w) (uri c) (username c) (password c) with
      | inl e => Some e
      | inr h =>
          match verify_connectivity env (S (tick w)) h with
          | Some e => Some e
          | None => verify_connectivity env (S (S (tick w))) h
          end
      end
  end.

(** ** What the polling loop leaves in the trace *)

(** The lengths of the sleeps in a trace. *)
Fixpoint sleeps (tr : list Event) : list Z :=
  match tr with
  | [] => []
  | EvSleep s :: tr' => s :: sleeps tr'
  | _ :: tr' => sleeps tr'
  end.

(** The events of one connectivity check. *)
Definition is_attempt (ev : Event) : bool :=
  match ev with
  | EvDriver _ _ _ _ | EvVerify _ _ | EvLog LError | EvLog LInfo => true
  | _ => false
  end.

(** Where a run of [wait_for_ready] stands, after its first reading of
    the clock: about to read the clock for the loop condition, having
    read it, inside a connectivity check, having read the clock for the
    debug line, having written it, and finished. *)
Inductive Phase := AtGuard | Guarded | Checking | Failed | Logged | Finished.

Definition phase_step (interval : Z) (p : Phase) (ev : Event) : option Phase :=
  match p, ev with
  | AtGuard, EvTime _ => Some Guarded
  | Guarded, EvLog LError => Some Finished
  | Guarded, (EvDriver _ _ _ _ | EvVerify _ _) => Some Checking
  | Checking, (EvDriver _ _ _ _ | EvVerify _ _ | EvLog LError | EvLog LInfo) =>
      Some Checking
  | Checking, EvTime _ => Some Failed
  | Failed, EvLog LDebug => Some Logged
  | Logged, EvSleep s => if s =? interval then Some AtGuard else None
  | _, _ => None
  end.

Fixpoint phase_run (interval : Z) (p : Phase) (tr : list Event) : option Phase :=
  match tr with
  | [] => Some p
  | ev :: tr' =>
      match phase_step interval p ev with
      | Some p' => phase_run interval p' tr'
      | None => None
      end
  end.

(** A clock that does not go back, and a sleep that lasts at least as
    long as asked. *)
Definition steady_clock (env : Env) (interval : Z) : Prop :=
  (forall k, 0 <= op_delay env k) /\
  (forall k, interval <= sleep_delay env k interval).

(** A clock on which only sleeping takes time, and exactly the time asked. *)
Definition exact_clock (env : Env) (interval : Z) : Prop :=
  (forall k, op_delay env k = 0) /\
  (forall k, sleep_delay env k interval = interval).

(** A server that is never reachable: every verification raises
    [ServiceUnavailable], and so does a driver that cannot be created. *)
Definition never_reachable (env : Env) : Prop :=
  (forall k h, exists e,
      verify_connectivity env k h = Some e /\ is_ServiceUnavailable e = true) /\
  (forall k u n p e,
      graph_driver env k u n p = inl e -> is_ServiceUnavailable e = true).

(** ** What is sent to the database *)

(** The texts of the read queries in a trace. *)
Fixpoint read_queries (tr : list Event) : list string :=
  match tr with
  | [] => []
  | EvRun _ q _ :: tr' => q :: read_queries tr'
  | _ :: tr' => read_queries tr'
  end.

(** [c] sends no read query but texts that satisfy [P]. *)
Definition only_reads {A} (P : string -> Prop) (c : M A) : Prop :=
  forall w, exists qs,
    read_queries (trace (snd (c w))) = read_queries (trace w) ++ qs /\
    Forall P qs.

Create HintDb reads.

(** ** The rest of the three files *)

Section Scope.

Variable env : Env.

(** [Neo4jConnection.__enter__]: connects and hands back the object *)
Definition __enter__ : M unit := connect env ;; ret tt.

(** [Neo4jConnection.__exit__]: closes; its [None] lets an exception of
    the body go on *)
Definition __exit__ : M unit := close env.

(** [with connection: body]: when [__enter__] raises, neither the body
    nor [__exit__] runs; otherwise [__exit__] runs after the body,
    however the body ended, and an exception of the body is raised again
    after it. *)
Definition with_connection {A} (body : M A) : M A :=
  __enter__ ;;
  fun w =>
    match body w with
    | (r, w1) =>
        match __exit__ w1 with
        | (Return _, w2) => (r, w2)
        | (Raise e, w2) => (Raise e, w2)
        end
    end.

End Scope.

(** [p in s] *)
Fixpoint occurs (p s : string) : bool :=
  startswith p s ||
  match s with
  | EmptyString => false
  | String _ s' => occurs p s'
  end.

(** An entry of the backup directory, with the time that [stat()] gives. *)
Record DirEntry := mkEntry { entry_name : string; st_mtime : Z }.

(** [backup_dir.glob("*.graphml*")]: the entries whose name holds the text *)
Definition glob_graphml (dir : list DirEntry) : list DirEntry :=
  filter (fun e => occurs ".graphml" (entry_name e) = true) dir.

(** [sorted(..., key=lambda p: p.stat().st_mtime)]: stable, ascending *)
Fixpoint insert_by_mtime (x : DirEntry) (l : list DirEntry) : list DirEntry :=
  match l with
  | [] => [x]
  | y :: l' =>
      if st_mtime x <=? st_mtime y then x :: y :: l'
      else y :: insert_by_mtime x l'
  end.

Fixpoint sorted_by_mtime (l : list DirEntry) : list DirEntry :=
  match l with
  | [] => []
  | x :: l' => insert_by_mtime x (sorted_by_mtime l')
  end.

(** [BackupManager.list_backups], on a listing of the directory *)
Definition list_backups (dir : list DirEntry) : list DirEntry :=
  sorted_by_mtime (glob_graphml dir).

(** [BackupManager.get_latest_backup]: [backups[-1] if backups else None] *)
Definition get_latest_backup (dir : list DirEntry) : option DirEntry :=
  last (list_backups dir).

(** An entry not modified after another. *)
Definition mtime_le (e1 e2 : DirEntry) : Prop := st_mtime e1 <= st_mtime e2.

(** A name that the pattern [*.graphml*] matches. *)
Definition is_backup (e : DirEntry) : Prop :=
  occurs ".graphml" (entry_name e) = true.

(** ** What a method may leave in the trace *)

(** Every event that [c] adds to the trace passes [ok]. *)
Definition emits {A} (ok : Event -> bool) (c : M A) : Prop :=
  forall w, exists evs,
    trace (snd (c w)) = trace w ++ evs /\ forallb ok evs = true.

Definition emitsL {S A} (ok : Event -> bool) (c : L S A) : Prop :=
  forall s w, exists evs,
    trace (snd (c s w)) = trace w ++ evs /\ forallb ok evs = true.

(** [v > 0] holds *)
Definition is_positive (v : Value) : bool :=
  match v with
  | VBool b => b
  | VInt z => 0 <? z
  | VFloat q => 0 <? Qnum q
  | _ => false
  end.

(** The five fixed queries of the health monitor. *)
Definition health_queries : list string :=
  [ "CALL apoc.help('version') YIELD name RETURN count(name) as count";
    "CALL dbms.components() YIELD versions RETURN versions[0] as version";
    "MATCH (n) RETURN count(n) as count";
    "MATCH ()-[r]->() RETURN count(r) as count";
    "CALL db.labels() YIELD label RETURN collect(label) as labels" ].

(** Reads of the fixed queries, driver creation, verification and logs:
    no write, no close, no sleep. *)
Definition health_event (ev : Event) : bool :=
  match ev with
  | EvDriver _ _ _ _ | EvVerify _ _ | EvLog _ => true
  | EvRun _ q _ => string_mem q health_queries
  | _ => false
  end.

(** The events of [connect()]. *)
Definition connect_event (ev : Event) : bool :=
  match ev with
  | EvDriver _ _ _ _ | EvVerify _ _ | EvLog _ => true
  | _ => false
  end.

(** What polling does: clock readings, connectivity checks, logs, and
    sleeps of the given length. *)
Definition poll_event (interval : Z) (ev : Event) : bool :=
  match ev with
  | EvDriver _ _ _ _ | EvVerify _ _ | EvLog _ | EvTime _ => true
  | EvSleep s => s =? interval
  | _ => false
  end.

(** What an import may do: no write but the one of [clear_database], and
    that one only when [clear] is set. *)
Definition import_event (clear : bool) (ev : Event) : bool :=
  match ev with
  | EvDriver _ _ _ _ | EvVerify _ _ | EvLog _ | EvRun _ _ _ => true
  | EvWrite _ q _ => clear && String.eqb q "MATCH (n) DETACH DELETE n"
  | _ => false
  end.

(** What an export may do. *)
Definition export_event (ev : Event) : bool :=
  match ev with
  | EvDriver _ _ _ _ | EvVerify _ _ | EvLog _ | EvRun _ _ _ | EvNow => true
  | _ => false
  end.

(** The first of the columns read by the backup helper that a row lacks. *)
Definition missing_column (r : Row) : option string :=
  match r !! "nodes", r !! "relationships", r !! "time" with
  | None, _, _ => Some "nodes"
  | Some _, None, _ => Some "relationships"
  | Some _, Some _, None => Some "time"
  | Some _, Some _, Some _ => None
  end.

(** What [clear_database()] may do after its warning. *)
Definition clear_event (ev : Event) : bool :=
  match ev with
  | EvDriver _ _ _ _ | EvVerify _ _ | EvLog _ => true
  | EvWrite _ q _ => String.eqb q "MATCH (n) DETACH DELETE n"
  | _ => false
  end.

(** A reachable server whose answer to every read lacks the column
    [relationships]. *)
Definition partial_env : Env :=
  {| graph_driver := fun k _ _ _ => inr (S k);
     verify_connectivity := fun _ _ => None;
     session_run := fun _ _ _ _ => inr [{["nodes" := VInt 1]}];
     session_execute_write := fun _ _ _ _ => inr [];
     op_delay := fun _ => 0;
     sleep_delay := fun _ secs => secs;
     path_exists := fun _ => true;
     strftime_now := fun _ => "20251026_143000";
     path_join := fun d n => d +:+ "/" +:+ n |}.

(** A connection that holds the handle 7. *)
Definition world7 : World :=
  {| connection := mkConn "bolt://localhost:7687" "neo4j" "yourpassword" (Some 7%nat);
     tick := O; now := 0; trace := [] |}.

(** A backup directory. *)
Definition some_dir : list DirEntry :=
  [ mkEntry "a.graphml" 3; mkEntry "notes.txt" 9;
    mkEntry "b.graphml.bak" 7; mkEntry "c.graphml" 5 ].

(** ["/" in s] *)
Fixpoint has_slash (s : string) : bool :=
  match s with
  | EmptyString => false
  | String c s' => Ascii.eqb c "/" || has_slash s'
  end.

(** What follows the last slash of a path, by recursion on the path. *)
Fixpoint after_last_slash (p : string) : string :=
  match p with
  | EmptyString => EmptyString
  | String c p' =>
      if has_slash p' then after_last_slash p'
      else if Ascii.eqb c "/" then p' else String c p'
  end.

(** ** Ltac for the monad *)

Ltac unfold_monad :=
  unfold try_except, try_exceptL, with_local, bind, bindL, lift, ret, retL,
    raise, readL, assign, log, get_driver, put_driver, get_conn in *.

(** * Neo4jConnection *)

Section ConnectionFacts.

Variable env : Env.

Lemma last_verify_app h tr1 tr2 seen :
  last_verify h (tr1 ++ tr2) seen = last_verify h tr2 (last_verify h tr1 seen).
Proof.
  revert seen. induction tr1 as [|ev tr1 IH]; intros seen; [reflexivity|].
  destruct ev; simpl; apply IH.
Qed.

(** C8. [close()] always returns, leaves no handle, and a second
    [close()] right after it returns too and changes nothing; with no
    handle to start with, the first one changes nothing either. *)
Theorem close_idempotent (w : World) :
  exists w1,
    close env w = (Return tt, w1) /\
    _driver (connection w1) = None /\
    close env w1 = (Return tt, w1) /\
    match _driver (connection w) with
    | None => w1 = w
    | Some h => trace w1 = trace w ++ [EvClose h; EvLog LInfo]
    end.
Proof.
  unfold close. unfold_monad.
  destruct w as [[u n p [h|]] k t tr]; simpl.
  - eexists. split; [reflexivity|]. simpl.
    repeat split. now rewrite <- app_assoc.
  - eexists. split; [reflexivity|]. simpl. repeat split.
Qed.

(** C1 (as amended). A [connect()] that returns stores the handle it
    returns, and that handle was verified by the call.  A [connect()]
    that raises either failed to create a driver and left the field as
    it was, or stored the new handle and failed to verify it. *)
Theorem connect_stores_handle (w : World) :
  let c := connection w in
  match connect env w with
  | (Return h, w') =>
      _driver (connection w') = Some h /\
      graph_driver env (tick w) (uri c) (username c) (password c) = inr h /\
      verify_connectivity env (S (tick w)) h = None /\
      handle_verified w' = true
  | (Raise e, w') =>
      (graph_driver env (tick w) (uri c) (username c) (password c) = inl e /\
       _driver (connection w') = _driver c) \/
      (exists h,
         graph_driver env (tick w) (uri c) (username c) (password c) = inr h /\
         verify_connectivity env (S (tick w)) h = Some e /\
         _driver (connection w') = Some h /\
         handle_verified w' = false)
  end.
Proof.
  unfold connect, GraphDatabase_driver, driver_verify_connectivity.
  unfold_monad. simpl.
  destruct (graph_driver env (tick w) _ _ _) as [e|h] eqn:Hd; simpl.
  - destruct (is_ServiceUnavailable e); [|destruct (is_AuthError e)];
      simpl; left; auto.
  - destruct (verify_connectivity env (S (tick w)) h) as [e|] eqn:Hv; simpl.
    + destruct (is_ServiceUnavailable e); [|destruct (is_AuthError e)]; simpl;
        right; exists h; repeat split; auto; unfold handle_verified; simpl;
        rewrite !last_verify_app; simpl; now rewrite Nat.eqb_refl.
    + repeat split; auto. unfold handle_verified. simpl.
      rewrite !last_verify_app. simpl. now rewrite Nat.eqb_refl.
Qed.

End ConnectionFacts.

(** C1 (as stated) fails: with the server down, [connect()] raises
    [ServiceUnavailable] and the connection keeps the handle that was just
    created and never verified. *)
Lemma connect_failure_keeps_unverified_handle :
  exists w',
    connect (ideal_env false []) world0 = (Raise unavailable, w') /\
    _driver (connection w') = Some 1%nat /\
    handle_verified w' = false.
Proof. eexists. split; [vm_compute; reflexivity|]. split; reflexivity. Qed.

(** * HealthChecker *)

Section HealthFacts.

Variable env : Env.

Lemma check_connectivity_fst (w : World) :
  fst (check_connectivity env w) =
  match reachability_failure env w with
  | None => Return true
  | Some e => if is_ServiceUnavailable e then Return false else Raise e
  end.
Proof.
  unfold check_connectivity, reachability_failure, driver, connect,
    GraphDatabase_driver, driver_verify_connectivity.
  unfold_monad. simpl.
  destruct (_driver (connection w)) as [h|]; simpl.
  - destruct (verify_connectivity env (tick w) h) as [e|]; simpl; [|reflexivity].
    now destruct (is_ServiceUnavailable e).
  - destruct (graph_driver env (tick w) _ _ _) as [e|h]; simpl.
    + destruct (is_ServiceUnavailable e) eqn:Hs; simpl; [now rewrite Hs|].
      destruct (is_AuthError e); simpl; now rewrite Hs.
    + destruct (verify_connectivity env (S (tick w)) h) as [e|]; simpl.
      * destruct (is_ServiceUnavailable e) eqn:Hs; simpl; [now rewrite Hs|].
        destruct (is_AuthError e); simpl; now rewrite Hs.
      * destruct (verify_connectivity env (S (S (tick w))) h) as [e|]; simpl;
          [|reflexivity].
        now destruct (is_ServiceUnavailable e).
Qed.

(** C5. [check_connectivity()] returns true when nothing fails in the
    reachability verification, returns false when what fails is a
    [ServiceUnavailable], and raises any other failure unchanged. *)
Theorem check_connectivity_outcome (w : World) :
  fst (check_connectivity env w) =
  match reachability_failure env w with
  | None => Return true
  | Some e => if is_ServiceUnavailable e then Return false else Raise e
  end.
Proof. apply check_connectivity_fst. Qed.

Lemma check_apoc_available_returns (w : World) :
  exists a w', check_apoc_available env w = (Return a, w').
Proof.
  unfold check_apoc_available. unfold_monad.
  destruct (execute_query env _ None w) as [[rows|e] w1]; [|eauto].
  destruct rows as [|r rows]; [eauto|].
  unfold getitem. destruct (r !! "count") as [v|]; unfold_monad; [|eauto].
  destruct v; simpl; unfold_monad; eauto.
Qed.

(** C2. [full_health_check()] always returns a report.  When the
    connectivity check says false the report is the initial one; when a
    step raises, the report holds what was filled so far and the
    message of the exception under [error]. *)
Theorem full_health_check_returns (w : World) :
  exists report w',
    full_health_check env w = (Return report, w') /\
    match check_connectivity env w with
    | (Return false, w1) => report = default_health /\ w' = w1
    | (Raise e, w1) =>
        report = mkHealth false false (VStr "unknown") ∅ (Some (message e)) /\
        w' = record (EvLog LError) w1
    | (Return true, w1) =>
        match check_apoc_available env w1 with
        | (Raise _, _) => False
        | (Return a, w2) =>
            match get_version env w2 with
            | (Raise e, w3) =>
                report = mkHealth true a (VStr "unknown") ∅ (Some (message e)) /\
                w' = record (EvLog LError) w3
            | (Return v, w3) =>
                match get_database_stats env w3 with
                | (Raise e, w4) =>
                    report = mkHealth true a v ∅ (Some (message e)) /\
                    w' = record (EvLog LError) w4
                | (Return s, w4) =>
                    report = mkHealth true a v s None /\ w' = w4
                end
            end
        end
    end.
Proof.
  unfold full_health_check. unfold_monad.
  destruct (check_connectivity env w) as [[[|]|e] w1]; simpl;
    [|eauto|eauto].
  destruct (check_apoc_available_returns w1) as (a & w2 & ->); simpl.
  destruct (get_version env w2) as [[v|e] w3]; simpl; [|eauto].
  destruct (get_database_stats env w3) as [[s|e] w4]; simpl; eauto.
Qed.

End HealthFacts.

(** ** The polling loop *)

Section PollingFacts.

Variable env : Env.

Lemma sleeps_app (tr1 tr2 : list Event) :
  sleeps (tr1 ++ tr2) = sleeps tr1 ++ sleeps tr2.
Proof.
  induction tr1 as [|ev tr1 IH]; [reflexivity|].
  destruct ev; simpl; now rewrite IH.
Qed.

Lemma attempts_no_sleep (ce : list Event) :
  forallb is_attempt ce = true -> sleeps ce = [].
Proof.
  induction ce as [|ev ce IH]; [reflexivity|].
  simpl. intros [Hev Hce]%andb_prop. destruct ev; try discriminate; auto.
Qed.

Lemma phase_run_app interval p tr1 tr2 :
  phase_run interval p (tr1 ++ tr2) =
  match phase_run interval p tr1 with
  | Some p' => phase_run interval p' tr2
  | None => None
  end.
Proof.
  revert p. induction tr1 as [|ev tr1 IH]; intros p; [reflexivity|].
  simpl. destruct (phase_step interval p ev); [apply IH|reflexivity].
Qed.

Lemma phase_run_checking interval (ce : list Event) :
  forallb is_attempt ce = true ->
  phase_run interval Checking ce = Some Checking.
Proof.
  induction ce as [|ev ce IH]; [reflexivity|].
  simpl. intros [Hev Hce]%andb_prop.
  destruct ev as [| | | | | | | |[]]; try discriminate; simpl; auto.
Qed.

(** What one connectivity check leaves in the trace and on the clock. *)
Lemma check_connectivity_events (w : World) :
  exists ce,
    trace (snd (check_connectivity env w)) = trace w ++ ce /\
    forallb is_attempt ce = true /\
    (forall interval, phase_run interval Guarded ce = Some Checking) /\
    ((forall k, 0 <= op_delay env k) ->
     now w <= now (snd (check_connectivity env w))) /\
    ((forall k, op_delay env k = 0) ->
     now (snd (check_connectivity env w)) = now w).
Proof.
  assert (Hfin : forall (tr ce : list Event) (t d : Z),
    tr = trace w ++ ce -> forallb is_attempt ce = true ->
    (forall interval, phase_run interval Guarded ce = Some Checking) ->
    t = now w + d ->
    ((forall k, 0 <= op_delay env k) -> 0 <= d) ->
    ((forall k, op_delay env k = 0) -> d = 0) ->
    exists ce,
      tr = trace w ++ ce /\
      forallb is_attempt ce = true /\
      (forall interval, phase_run interval Guarded ce = Some Checking) /\
      ((forall k, 0 <= op_delay env k) -> now w <= t) /\
      ((forall k, op_delay env k = 0) -> t = now w)).
  { intros tr ce t d Ht Ha Hp Hn Hm Hz. exists ce. repeat split; auto.
    - intros Hk. specialize (Hm Hk). lia.
    - intros Hk. specialize (Hz Hk). lia. }
  unfold check_connectivity, driver, connect,
    GraphDatabase_driver, driver_verify_connectivity.
  unfold_monad. simpl.
  destruct (_driver (connection w)) as [h|]; simpl.
  - destruct (verify_connectivity env (tick w) h) as [e|]; simpl;
      [destruct (is_ServiceUnavailable e)|]; simpl;
      (eapply Hfin with (d := op_delay env (tick w));
       [reflexivity|reflexivity|reflexivity|reflexivity|auto|auto]).
  - destruct (graph_driver env (tick w) _ _ _) as [e|h] eqn:Hd; simpl.
    + destruct (is_ServiceUnavailable e) eqn:Hs; simpl; rewrite ?Hs; simpl;
        [|destruct (is_AuthError e); simpl; rewrite Hs; simpl];
        (eapply Hfin with (d := op_delay env (tick w));
         [simpl; rewrite <- ?app_assoc; reflexivity
         |reflexivity|reflexivity|reflexivity|auto|auto]).
    + destruct (verify_connectivity env (S (tick w)) h) as [e|]; simpl.
      * destruct (is_ServiceUnavailable e) eqn:Hs; simpl; rewrite ?Hs; simpl;
          [|destruct (is_AuthError e); simpl; rewrite Hs; simpl];
          (eapply Hfin with
             (d := op_delay env (tick w) + op_delay env (S (tick w)));
           [simpl; rewrite <- ?app_assoc; reflexivity
           |reflexivity|reflexivity|simpl; lia
           |intros Hk; pose proof (Hk (tick w)); pose proof (Hk (S (tick w))); lia
           |intros Hk; rewrite !Hk; lia]).
      * destruct (verify_connectivity env (S (S (tick w))) h) as [e|]; simpl;
          [destruct (is_ServiceUnavailable e)|]; simpl;
          (eapply Hfin with
             (d := op_delay env (tick w) + op_delay env (S (tick w))
                   + op_delay env (S (S (tick w))));
           [simpl; rewrite <- ?app_assoc; reflexivity
           |reflexivity|reflexivity|simpl; lia
           |intros Hk; pose proof (Hk (tick w)); pose proof (Hk (S (tick w)));
            pose proof (Hk (S (S (tick w)))); lia
           |intros Hk; rewrite !Hk; lia]).
Qed.

Lemma check_connectivity_unreachable (w : World) :
  never_reachable env -> fst (check_connectivity env w) = Return false.
Proof.
  intros [Hv Hd]. rewrite check_connectivity_fst. unfold reachability_failure.
  destruct (_driver (connection w)) as [h|].
  - destruct (Hv (tick w) h) as (e & -> & ->). reflexivity.
  - destruct (graph_driver env (tick w) _ _ _) as [e|h] eqn:Hg.
    + now rewrite (Hd _ _ _ _ _ Hg).
    + destruct (Hv (S (tick w)) h) as (e & -> & ->). reflexivity.
Qed.

(** C10. With a timeout of zero or less and a clock that does not go
    back, [wait_for_ready] reads the clock twice, logs the failure and
    returns false: no connectivity check is made and nothing sleeps. *)
Theorem wait_for_ready_nonpositive_timeout
    (fuel : nat) (timeout interval : Z) (w : World) :
  timeout <= 0 ->
  (forall k, 0 <= op_delay env k) ->
  exists t0 t1 w',
    wait_for_ready env fuel timeout interval w = (Return (Some false), w') /\
    trace w' = trace w ++ [EvTime t0; EvTime t1; EvLog LError] /\
    connection w' = connection w.
Proof.
  intros HT Hmono.
  exists (now w + op_delay env (tick w)),
         (now w + op_delay env (tick w) + op_delay env (S (tick w))).
  unfold wait_for_ready.
  pose proof (Hmono (S (tick w))) as Hd.
  destruct fuel as [|fuel]; simpl; unfold time_time; unfold_monad; simpl;
    (destruct (Z.ltb_spec
       (now w + op_delay env (tick w) + op_delay env (S (tick w))
        - (now w + op_delay env (tick w))) timeout) as [Hlt|Hge];
     [lia|]);
    (eexists; split; [reflexivity|]; simpl; split; [|reflexivity]);
    now rewrite <- !app_assoc.
Qed.

(** C4. When the loop condition holds at its first evaluation and the
    first connectivity check returns true, [wait_for_ready] returns true
    and the trace has no more sleeps than it had. *)
Theorem wait_for_ready_immediate
    (fuel : nat) (timeout interval start t : Z) (w w1 w2 w3 : World) :
  time_time env w = (Return start, w1) ->
  time_time env w1 = (Return t, w2) ->
  t - start < timeout ->
  check_connectivity env w2 = (Return true, w3) ->
  wait_for_ready env (S fuel) timeout interval w
    = (Return (Some true), record (EvLog LInfo) w3) /\
  sleeps (trace (record (EvLog LInfo) w3)) = sleeps (trace w).
Proof.
  intros H0 H1 Hlt Hc. split.
  - unfold wait_for_ready. simpl. unfold bind at 1. rewrite H0.
    unfold bind at 1. rewrite H1.
    destruct (Z.ltb_spec (t - start) timeout) as [_|Hge]; [|lia].
    unfold bind at 1. rewrite Hc. reflexivity.
  - destruct (check_connectivity_events w2) as (ce & Htr & Hatt & _).
    rewrite Hc in Htr. simpl in Htr. simpl. rewrite Htr.
    unfold time_time in H0, H1. inversion H0; subst. inversion H1; subst.
    simpl. rewrite !sleeps_app. simpl.
    rewrite (attempts_no_sleep ce Hatt). now rewrite !app_nil_r.
Qed.

(** One pass of the loop against an unreachable server, and the passes
    after it. *)
Lemma wait_loop_unreachable (start timeout interval : Z) :
  0 < interval ->
  steady_clock env interval ->
  never_reachable env ->
  forall (fuel : nat) (w : World),
    timeout - (now w - start) <= Z.of_nat fuel * interval ->
    exists w' evs,
      wait_loop env fuel start timeout interval w = (Return (Some false), w') /\
      trace w' = trace w ++ evs /\
      phase_run interval AtGuard evs = Some Finished /\
      timeout <= now w' - start /\
      (let n := Z.of_nat (length (sleeps evs)) in
       (n = 0 \/ (now w - start) + (n - 1) * interval < timeout) /\
       (exact_clock env interval -> now w' = now w + n * interval)).
Proof.
  intros HI [Hmono Hsleep] Hdown.
  assert (Hstop : forall f (w : World),
    timeout <= now w + op_delay env (tick w) - start ->
    exists w' evs,
      wait_loop env f start timeout interval w = (Return (Some false), w') /\
      trace w' = trace w ++ evs /\
      phase_run interval AtGuard evs = Some Finished /\
      timeout <= now w' - start /\
      (let n := Z.of_nat (length (sleeps evs)) in
       (n = 0 \/ (now w - start) + (n - 1) * interval < timeout) /\
       (exact_clock env interval -> now w' = now w + n * interval))).
  { intros f w Hge.
    exists (record (EvLog LError)
              (emit (EvTime (now w + op_delay env (tick w)))
                    (op_delay env (tick w)) w)),
           [EvTime (now w + op_delay env (tick w)); EvLog LError].
    split.
    - destruct f; simpl; unfold time_time; unfold_monad; simpl;
        (destruct (Z.ltb_spec (now w + op_delay env (tick w) - start) timeout);
         [lia|reflexivity]).
    - simpl. rewrite <- app_assoc. repeat split; auto.
      intros [Hz _]. rewrite Hz. lia. }
  induction fuel as [|fuel IH]; intros w Hm.
  - apply Hstop. pose proof (Hmono (tick w)). lia.
  - destruct (Z.ltb_spec (now w + op_delay env (tick w) - start) timeout)
      as [Hlt|Hge]; [|now apply Hstop].
    set (w1 := emit (EvTime (now w + op_delay env (tick w)))
                 (op_delay env (tick w)) w).
    destruct (check_connectivity env w1) as [r w2] eqn:Hc.
    pose proof (check_connectivity_unreachable w1 Hdown) as Hr.
    destruct (check_connectivity_events w1) as (ce & Htr & Hatt & Hph & Hle & Heq).
    rewrite Hc in Hr, Htr, Hle, Heq. simpl in Hr, Htr, Hle, Heq. subst r.
    set (w3 := emit (EvTime (now w2 + op_delay env (tick w2)))
                 (op_delay env (tick w2)) w2).
    set (w5 := emit (EvSleep interval) (sleep_delay env (tick w3) interval)
                 (record (EvLog LDebug) w3)).
    destruct (IH w5) as (w' & evs & Hrun & Htr' & Hph' & Hend & Hn & Hex).
    { pose proof (Hmono (tick w)). pose proof (Hmono (tick w2)).
      pose proof (Hsleep (tick w3)). specialize (Hle Hmono).
      subst w5 w3 w1. simpl in *. lia. }
    exists w', (EvTime (now w + op_delay env (tick w)) :: ce
                ++ [EvTime (now w2 + op_delay env (tick w2)); EvLog LDebug;
                    EvSleep interval] ++ evs).
    split; [|split; [|split; [|split]]].
    + simpl. unfold time_time at 1. unfold bind at 1.
      destruct (Z.ltb_spec (now w + op_delay env (tick w) - start) timeout);
        [|lia].
      fold w1. unfold bind at 1. rewrite Hc.
      unfold time_time at 1. unfold bind at 1. fold w3.
      unfold log at 1. unfold bind at 1.
      unfold time_sleep at 1. unfold bind at 1.
      destruct (Z.ltb_spec interval 0); [lia|].
      fold w5. exact Hrun.
    + rewrite Htr'. subst w5 w3 w1. simpl in *. rewrite Htr.
      rewrite <- !app_assoc. reflexivity.
    + simpl. rewrite phase_run_app, Hph. simpl. now rewrite Z.eqb_refl.
    + exact Hend.
    + simpl. rewrite !sleeps_app, (attempts_no_sleep ce Hatt). simpl.
      rewrite Nat2Z.inj_succ.
      pose proof (Hmono (tick w)). pose proof (Hmono (tick w2)).
      pose proof (Hsleep (tick w3)). specialize (Hle Hmono).
      subst w5 w3 w1. simpl in *. split.
      * right. destruct Hn as [Hn|Hn]; [rewrite Hn; lia|lia].
      * intros Hexact. rewrite (Hex Hexact).
        destruct Hexact as [Hz Hs]. specialize (Heq Hz).
        rewrite Hs, Heq, !Hz. lia.
Qed.

(** C3. Against a server that is never reachable, with a clock that
    does not go back and sleeps that last at least [interval],
    [wait_for_ready(timeout, interval)] returns false, without raising,
    once [timeout] has elapsed since its first reading of the clock.
    Each pass reads the clock, then checks connectivity, then sleeps
    [interval]; the last pass but one began before [timeout], and when
    only the sleeps take time the run lasts less than
    [timeout + interval]. *)
Theorem wait_for_ready_unreachable
    (fuel : nat) (timeout interval : Z) (w : World) :
  0 < timeout ->
  0 < interval ->
  steady_clock env interval ->
  never_reachable env ->
  (Z.to_nat (timeout / interval) + 1 <= fuel)%nat ->
  exists start w' evs,
    wait_for_ready env fuel timeout interval w = (Return (Some false), w') /\
    trace w' = trace w ++ EvTime start :: evs /\
    phase_run interval AtGuard evs = Some Finished /\
    timeout <= now w' - start /\
    (Z.of_nat (length (sleeps evs)) - 1) * interval < timeout /\
    (exact_clock env interval -> now w' - start < timeout + interval).
Proof.
  intros HT HI Hclock Hdown Hfuel.
  set (start := now w + op_delay env (tick w)).
  set (w1 := emit (EvTime start) (op_delay env (tick w)) w).
  destruct (wait_loop_unreachable start timeout interval HI Hclock Hdown fuel w1)
    as (w' & evs & Hrun & Htr & Hph & Hend & Hn & Hex).
  { subst w1 start. simpl.
    pose proof (Z.mul_succ_div_gt timeout interval HI) as Hdiv.
    assert (0 <= timeout / interval) by (apply Z.div_pos; lia).
    assert (timeout / interval + 1 <= Z.of_nat fuel) by lia.
    nia. }
  exists start, w', evs.
  split; [exact Hrun|].
  split; [|split; [exact Hph|split; [exact Hend|split]]].
  - rewrite Htr. subst w1. simpl. now rewrite <- app_assoc.
  - subst w1 start. simpl in Hn.
    destruct Hn as [Hn|Hn]; [rewrite Hn; lia|lia].
  - intros Hexact. rewrite (Hex Hexact). subst w1 start. simpl in *.
    destruct Hn as [Hn|Hn]; [rewrite Hn; lia|lia].
Qed.

End PollingFacts.

(** * BackupManager *)

Section BackupFacts.

Variable env : Env.

Lemma read_queries_app (tr1 tr2 : list Event) :
  read_queries (tr1 ++ tr2) = read_queries tr1 ++ read_queries tr2.
Proof.
  induction tr1 as [|ev tr1 IH]; [reflexivity|].
  destruct ev; simpl; now rewrite IH.
Qed.

Section Reads.

Variable P : string -> Prop.

Lemma only_reads_silent {A} (c : M A) :
  (forall w, read_queries (trace (snd (c w))) = read_queries (trace w)) ->
  only_reads P c.
Proof.
  intros H w. exists []. rewrite H, app_nil_r. split; [reflexivity|constructor].
Qed.

Lemma only_reads_ret {A} (a : A) : only_reads P (ret a).
Proof. now apply only_reads_silent. Qed.

Lemma only_reads_raise {A} (e : Exc) : only_reads P (@raise A e).
Proof. now apply only_reads_silent. Qed.

Lemma only_reads_log (lvl : Level) : only_reads P (log lvl).
Proof.
  apply only_reads_silent. intros w. simpl.
  now rewrite read_queries_app, app_nil_r.
Qed.

Lemma only_reads_get_driver : only_reads P get_driver.
Proof. now apply only_reads_silent. Qed.

Lemma only_reads_get_conn : only_reads P get_conn.
Proof. now apply only_reads_silent. Qed.

Lemma only_reads_put_driver (d : option Handle) : only_reads P (put_driver d).
Proof. now apply only_reads_silent. Qed.

Lemma only_reads_exists (p : string) : only_reads P (os_path_exists env p).
Proof. now apply only_reads_silent. Qed.

Lemma only_reads_new_driver (u n p : string) :
  only_reads P (GraphDatabase_driver env u n p).
Proof.
  apply only_reads_silent. intros w. unfold GraphDatabase_driver.
  destruct (graph_driver env (tick w) u n p); simpl;
    now rewrite read_queries_app, app_nil_r.
Qed.

Lemma only_reads_verify (h : Handle) :
  only_reads P (driver_verify_connectivity env h).
Proof.
  apply only_reads_silent. intros w. unfold driver_verify_connectivity.
  destruct (verify_connectivity env (tick w) h); simpl;
    now rewrite read_queries_app, app_nil_r.
Qed.

Lemma only_reads_write (h : Handle) (q : string) (p : Row) :
  only_reads P (session_run_write env h q p).
Proof.
  apply only_reads_silent. intros w. unfold session_run_write.
  destruct (session_execute_write env (tick w) h q p); simpl;
    now rewrite read_queries_app, app_nil_r.
Qed.

Lemma only_reads_read (h : Handle) (q : string) (p : Row) :
  P q -> only_reads P (session_run_read env h q p).
Proof.
  intros Hq w. exists [q]. split; [|now repeat constructor].
  unfold session_run_read.
  destruct (session_run env (tick w) h q p); simpl;
    now rewrite read_queries_app.
Qed.

Lemma only_reads_bind {A B} (c : M A) (k : A -> M B) :
  only_reads P c -> (forall a, only_reads P (k a)) -> only_reads P (bind c k).
Proof.
  intros Hc Hk w. unfold bind.
  destruct (Hc w) as (qs & Hqs & HP).
  destruct (c w) as [[a|e] w1]; simpl in *.
  - destruct (Hk a w1) as (qs' & Hqs' & HP').
    exists (qs ++ qs'). rewrite Hqs', Hqs, app_assoc. split; [reflexivity|].
    now apply Forall_app.
  - now exists qs.
Qed.

Lemma only_reads_try_except {A} (c : M A) (h : Exc -> M A) :
  only_reads P c -> (forall e, only_reads P (h e)) ->
  only_reads P (try_except c h).
Proof.
  intros Hc Hh w. unfold try_except.
  destruct (Hc w) as (qs & Hqs & HP).
  destruct (c w) as [[a|e] w1]; simpl in *.
  - now exists qs.
  - destruct (Hh e w1) as (qs' & Hqs' & HP').
    exists (qs ++ qs'). rewrite Hqs', Hqs, app_assoc. split; [reflexivity|].
    now apply Forall_app.
Qed.

Hint Resolve only_reads_ret only_reads_raise only_reads_log
  only_reads_get_driver only_reads_get_conn only_reads_put_driver
  only_reads_exists only_reads_new_driver only_reads_verify
  only_reads_write only_reads_read : reads.

Ltac reads :=
  repeat first
    [ apply only_reads_bind; [|intros ?]
    | apply only_reads_try_except; [|intros ?]
    | progress auto with reads
    | match goal with
      | |- only_reads _ (match ?x with _ => _ end) => destruct x
      | |- only_reads _ (if ?b then _ else _) => destruct b
      end ].

Lemma only_reads_connect : only_reads P (connect env).
Proof. unfold connect. reads. Qed.

Lemma only_reads_driver : only_reads P (driver env).
Proof. unfold driver. reads; apply only_reads_connect. Qed.

Lemma only_reads_execute_write (q : string) (p : option Row) :
  only_reads P (execute_write env q p).
Proof. unfold execute_write. reads; apply only_reads_driver. Qed.

Lemma only_reads_execute_query (q : string) (p : option Row) :
  P q -> only_reads P (execute_query env q p).
Proof. intros Hq. unfold execute_query. reads; apply only_reads_driver. Qed.

Lemma only_reads_clear_database : only_reads P (clear_database env).
Proof. unfold clear_database. reads; apply only_reads_execute_write. Qed.

Lemma only_reads_getitem (r : Row) (key : string) : only_reads P (getitem r key).
Proof. unfold getitem. reads. Qed.

Lemma only_reads_import (filepath : string) (clear : bool) :
  P (import_query (basename filepath)) ->
  only_reads P (import_from_graphml env filepath clear).
Proof.
  intros Hq. unfold import_from_graphml.
  reads; auto using only_reads_clear_database, only_reads_execute_query,
    only_reads_getitem.
Qed.

End Reads.

(** C6. Importing from a path that does not exist raises
    [FileNotFoundError] and leaves the world as it was: no query, no
    [clear_database], whatever the flag. *)
Theorem import_missing_file (filepath : string) (clear : bool) (w : World) :
  path_exists env filepath = false ->
  import_from_graphml env filepath clear w =
    (Raise (mkExc FileNotFoundError ("Backup file not found: " +:+ filepath)), w).
Proof.
  intros Hmiss. unfold import_from_graphml, os_path_exists. unfold_monad.
  now rewrite Hmiss.
Qed.

(** C9. Two existing paths with the same basename lead to the same
    outcome and the same world, trace included, and the only read query
    that importing the one sends is the text built from the basename of
    the other. *)
Theorem import_depends_on_basename
    (p1 p2 : string) (clear : bool) (w : World) :
  path_exists env p1 = true ->
  path_exists env p2 = true ->
  basename p1 = basename p2 ->
  import_from_graphml env p1 clear w = import_from_graphml env p2 clear w /\
  only_reads (fun q => q = import_query (basename p2))
    (import_from_graphml env p1 clear).
Proof.
  intros H1 H2 Hb. split.
  - unfold import_from_graphml, os_path_exists. unfold_monad.
    now rewrite H1, H2, Hb.
  - apply only_reads_import. now rewrite Hb.
Qed.

End BackupFacts.

(** C7 fails on the code: [replace] drops every occurrence of
    [".graphml"], not only a trailing one.  A name with the text inside
    loses it, and a name in which dropping an occurrence brings a new one
    together ends with the extension twice. *)
Lemma export_drops_inner_occurrences :
  filename_base_of "a.graphml.bak" = "a.bak" /\
  fst (export_to_graphml (ideal_env true []) (mkBackup "./backup")
         (Some "a.graphml.bak") true world0)
    = Return "./backup/a.bak.graphml" /\
  filename_base_of "x.graph.graphmlml" = "x.graphml" /\
  fst (export_to_graphml (ideal_env true []) (mkBackup "./backup")
         (Some "x.graph.graphmlml") true world0)
    = Return "./backup/x.graphml.graphml" /\
  read_queries (trace (snd
    (export_to_graphml (ideal_env true []) (mkBackup "./backup")
       (Some "x.graph.graphmlml") true world0)))
    = [export_query "x.graphml" true].
Proof. repeat split; vm_compute; reflexivity. Qed.

(** * The unit tests of the repository, run on the model *)

Example test_connect_service_unavailable :
  fst (connect (ideal_env false []) world0) = Raise unavailable.
Proof. reflexivity. Qed.

Example test_connect_auth_error :
  fst (connect auth_env world0) = Raise (mkExc AuthError "Auth failed").
Proof. reflexivity. Qed.

Example test_check_connectivity_failure :
  fst (check_connectivity (ideal_env false []) world0) = Return false.
Proof. reflexivity. Qed.

Example test_get_version_no_result :
  fst (get_version (ideal_env true []) world0) = Return (VStr "unknown").
Proof. reflexivity. Qed.

Example test_full_health_check_success :
  fst (full_health_check scripted_env world0) =
  Return {| connected := true; apoc_available := true;
            version := VStr "2025.09.0";
            stats := <["node_count" := VInt 10]>
                       (<["relationship_count" := VInt 5]>
                          {["labels" := VList [VStr "Person"]]});
            error := None |}.
Proof. vm_compute. reflexivity. Qed.

Example test_full_health_check_with_error :
  fst (full_health_check (ideal_env false []) world0) = Return default_health.
Proof. vm_compute. reflexivity. Qed.

Example full_health_check_auth_error :
  fst (full_health_check auth_env world0) =
  Return {| connected := false; apoc_available := false;
            version := VStr "unknown"; stats := ∅;
            error := Some "Auth failed" |}.
Proof. vm_compute. reflexivity. Qed.

Example test_export_to_graphml_success :
  fst (export_to_graphml (ideal_env true []) (mkBackup "./backup")
         (Some "test_backup.graphml") true world0)
  = Return "./backup/test_backup.graphml".
Proof. vm_compute. reflexivity. Qed.

Example test_export_to_graphml_auto_filename :
  fst (export_to_graphml (ideal_env true []) (mkBackup "./backup") None true world0)
  = Return "./backup/neo4j_backup_20251026_143000.graphml".
Proof. vm_compute. reflexivity. Qed.

Example test_import_from_graphml_success :
  fst (import_from_graphml scripted_env "/fake/path/backup.graphml" false world0)
  = Return (<["nodes" := VInt 100]> (<["relationships" := VInt 50]>
              {["time_ms" := VInt 2000]})).
Proof. vm_compute. reflexivity. Qed.

Example test_import_from_graphml_no_results :
  fst (import_from_graphml (ideal_env true ["/fake/path/backup.graphml"])
         "/fake/path/backup.graphml" false world0)
  = Return zero_stats.
Proof. vm_compute. reflexivity. Qed.

(** * The theorems at concrete inputs *)

(** [wait_for_ready(5, 2)] against a server that is down *)
Lemma wait_for_ready_unreachable_witness :
  exists start w' evs,
    wait_for_ready (ideal_env false []) 3 5 2 world0
      = (Return (Some false), w') /\
    trace w' = trace world0 ++ EvTime start :: evs /\
    phase_run 2 AtGuard evs = Some Finished /\
    5 <= now w' - start /\
    (Z.of_nat (length (sleeps evs)) - 1) * 2 < 5 /\
    (exact_clock (ideal_env false []) 2 -> now w' - start < 5 + 2).
Proof.
  apply (wait_for_ready_unreachable (ideal_env false []) 3 5 2 world0).
  - lia.
  - lia.
  - split; intros k; simpl; lia.
  - split.
    + intros k h. exists unavailable. split; reflexivity.
    + intros k u n p e. simpl. discriminate.
  - vm_compute. lia.
Defined.

(** [wait_for_ready(60, 2)] against a server that is up *)
Lemma wait_for_ready_immediate_witness :
  wait_for_ready (ideal_env true []) 1 60 2 world0
    = (Return (Some true),
       record (EvLog LInfo)
         (snd (check_connectivity (ideal_env true [])
                 (snd (time_time (ideal_env true [])
                         (snd (time_time (ideal_env true []) world0))))))) /\
  sleeps (trace (record (EvLog LInfo)
         (snd (check_connectivity (ideal_env true [])
                 (snd (time_time (ideal_env true [])
                         (snd (time_time (ideal_env true []) world0))))))))
    = sleeps (trace world0).
Proof.
  apply (wait_for_ready_immediate (ideal_env true []) 0 60 2 0 0 world0
           (snd (time_time (ideal_env true []) world0))
           (snd (time_time (ideal_env true [])
                   (snd (time_time (ideal_env true []) world0))))).
  - reflexivity.
  - reflexivity.
  - lia.
  - reflexivity.
Defined.

(** [wait_for_ready(0, 2)] *)
Lemma wait_for_ready_nonpositive_timeout_witness :
  exists t0 t1 w',
    wait_for_ready (ideal_env true []) 7 0 2 world0 = (Return (Some false), w') /\
    trace w' = trace world0 ++ [EvTime t0; EvTime t1; EvLog LError] /\
    connection w' = connection world0.
Proof.
  apply (wait_for_ready_nonpositive_timeout (ideal_env true []) 7 0 2 world0).
  - lia.
  - intros k. simpl. lia.
Defined.

(** an import from a path that is not there, with [clear_database=True] *)
Lemma import_missing_file_witness :
  import_from_graphml (ideal_env true ["/data/backup.graphml"])
    "/fake/path/nonexistent.graphml" true world0
  = (Raise (mkExc FileNotFoundError
       "Backup file not found: /fake/path/nonexistent.graphml"), world0).
Proof.
  apply (import_missing_file (ideal_env true ["/data/backup.graphml"])
           "/fake/path/nonexistent.graphml" true world0).
  reflexivity.
Defined.

(** the same file name in two directories *)
Lemma import_depends_on_basename_witness :
  import_from_graphml
    (ideal_env true ["/data/backup.graphml"; "/mnt/old/backup.graphml"])
    "/data/backup.graphml" true world0
  = import_from_graphml
    (ideal_env true ["/data/backup.graphml"; "/mnt/old/backup.graphml"])
    "/mnt/old/backup.graphml" true world0 /\
  only_reads (fun q => q = import_query (basename "/mnt/old/backup.graphml"))
    (import_from_graphml
       (ideal_env true ["/data/backup.graphml"; "/mnt/old/backup.graphml"])
       "/data/backup.graphml" true).
Proof.
  apply (import_depends_on_basename
           (ideal_env true ["/data/backup.graphml"; "/mnt/old/backup.graphml"])
           "/data/backup.graphml" "/mnt/old/backup.graphml" true world0).
  - reflexivity.
  - reflexivity.
  - reflexivity.
Defined.

(** * What the methods never do *)

Section EmitsFacts.

Variable env : Env.

Section Allowed.

Variable ok : Event -> bool.

Lemma emits_silent {A} (c : M A) :
  (forall w, trace (snd (c w)) = trace w) -> emits ok c.
Proof. intros H w. exists []. now rewrite H, app_nil_r. Qed.

Lemma emits_one {A} (c : M A) (ev : World -> Event) :
  (forall w, trace (snd (c w)) = trace w ++ [ev w]) ->
  (forall w, ok (ev w) = true) ->
  emits ok c.
Proof.
  intros H Hok w. exists [ev w]. split; [apply H|]. simpl. now rewrite Hok.
Qed.

Lemma emits_ret {A} (a : A) : emits ok (ret a).
Proof. now apply emits_silent. Qed.

Lemma emits_raise {A} (e : Exc) : emits ok (@raise A e).
Proof. now apply emits_silent. Qed.

Lemma emits_get_driver : emits ok get_driver.
Proof. now apply emits_silent. Qed.

Lemma emits_get_conn : emits ok get_conn.
Proof. now apply emits_silent. Qed.

Lemma emits_put_driver (d : option Handle) : emits ok (put_driver d).
Proof. now apply emits_silent. Qed.

Lemma emits_exists (p : string) : emits ok (os_path_exists env p).
Proof. now apply emits_silent. Qed.

Lemma emits_log (lvl : Level) : ok (EvLog lvl) = true -> emits ok (log lvl).
Proof. intros H. now apply emits_one with (ev := fun _ => EvLog lvl). Qed.

Lemma emits_new_driver (u n p : string) :
  (forall r, ok (EvDriver u n p r) = true) ->
  emits ok (GraphDatabase_driver env u n p).
Proof.
  intros H.
  apply emits_one with (ev := fun w => EvDriver u n p (graph_driver env (tick w) u n p));
    [|auto].
  intros w. unfold GraphDatabase_driver.
  now destruct (graph_driver env (tick w) u n p).
Qed.

Lemma emits_verify (h : Handle) :
  (forall r, ok (EvVerify h r) = true) ->
  emits ok (driver_verify_connectivity env h).
Proof.
  intros H.
  apply emits_one with (ev := fun w => EvVerify h (verify_connectivity env (tick w) h));
    [|auto].
  intros w. unfold driver_verify_connectivity.
  now destruct (verify_connectivity env (tick w) h).
Qed.

Lemma emits_close (h : Handle) :
  ok (EvClose h) = true -> emits ok (driver_close env h).
Proof. intros H. now apply emits_one with (ev := fun _ => EvClose h). Qed.

Lemma emits_read (h : Handle) (q : string) (p : Row) :
  ok (EvRun h q p) = true -> emits ok (session_run_read env h q p).
Proof.
  intros H. apply emits_one with (ev := fun _ => EvRun h q p); [|auto].
  intros w. unfold session_run_read.
  now destruct (session_run env (tick w) h q p).
Qed.

Lemma emits_write (h : Handle) (q : string) (p : Row) :
  ok (EvWrite h q p) = true -> emits ok (session_run_write env h q p).
Proof.
  intros H. apply emits_one with (ev := fun _ => EvWrite h q p); [|auto].
  intros w. unfold session_run_write.
  now destruct (session_execute_write env (tick w) h q p).
Qed.

Lemma emits_time : (forall t, ok (EvTime t) = true) -> emits ok (time_time env).
Proof.
  intros H.
  now apply emits_one with (ev := fun w => EvTime (now w + op_delay env (tick w))).
Qed.

Lemma emits_sleep (secs : Z) :
  ok (EvSleep secs) = true -> emits ok (time_sleep env secs).
Proof.
  intros H w. unfold time_sleep. destruct (secs <? 0); simpl.
  - exists []. now rewrite app_nil_r.
  - exists [EvSleep secs]. simpl. now rewrite H.
Qed.

Lemma emits_strftime : ok EvNow = true -> emits ok (datetime_now_strftime env).
Proof. intros H. now apply emits_one with (ev := fun _ => EvNow). Qed.

Lemma emits_bind {A B} (c : M A) (k : A -> M B) :
  emits ok c -> (forall a, emits ok (k a)) -> emits ok (bind c k).
Proof.
  intros Hc Hk w. unfold bind.
  destruct (Hc w) as (evs & Hevs & Hok).
  destruct (c w) as [[a|e] w1]; simpl in *.
  - destruct (Hk a w1) as (evs' & Hevs' & Hok').
    exists (evs ++ evs'). rewrite Hevs', Hevs, app_assoc. split; [reflexivity|].
    rewrite forallb_app. now rewrite Hok, Hok'.
  - now exists evs.
Qed.

Lemma emits_try_except {A} (c : M A) (h : Exc -> M A) :
  emits ok c -> (forall e, emits ok (h e)) -> emits ok (try_except c h).
Proof.
  intros Hc Hh w. unfold try_except.
  destruct (Hc w) as (evs & Hevs & Hok).
  destruct (c w) as [[a|e] w1]; simpl in *.
  - now exists evs.
  - destruct (Hh e w1) as (evs' & Hevs' & Hok').
    exists (evs ++ evs'). rewrite Hevs', Hevs, app_assoc. split; [reflexivity|].
    rewrite forallb_app. now rewrite Hok, Hok'.
Qed.

Lemma emitsL_lift {S A} (c : M A) : emits ok c -> emitsL (S := S) ok (lift c).
Proof.
  intros Hc s w. unfold lift. destruct (Hc w) as (evs & Hevs & Hok).
  destruct (c w) as [r w1]. now exists evs.
Qed.

Lemma emitsL_silent {S A} (c : L S A) :
  (forall s w, trace (snd (c s w)) = trace w) -> emitsL ok c.
Proof. intros H s w. exists []. now rewrite H, app_nil_r. Qed.

Lemma emitsL_bind {S A B} (c : L S A) (k : A -> L S B) :
  emitsL ok c -> (forall a, emitsL ok (k a)) -> emitsL ok (bindL c k).
Proof.
  intros Hc Hk s w. unfold bindL.
  destruct (Hc s w) as (evs & Hevs & Hok).
  destruct (c s w) as [[[a|e] s1] w1]; simpl in *.
  - destruct (Hk a s1 w1) as (evs' & Hevs' & Hok').
    exists (evs ++ evs'). rewrite Hevs', Hevs, app_assoc. split; [reflexivity|].
    rewrite forallb_app. now rewrite Hok, Hok'.
  - now exists evs.
Qed.

Lemma emitsL_try_except {S A} (c : L S A) (h : Exc -> L S A) :
  emitsL ok c -> (forall e, emitsL ok (h e)) -> emitsL ok (try_exceptL c h).
Proof.
  intros Hc Hh s w. unfold try_exceptL.
  destruct (Hc s w) as (evs & Hevs & Hok).
  destruct (c s w) as [[[a|e] s1] w1]; simpl in *.
  - now exists evs.
  - destruct (Hh e s1 w1) as (evs' & Hevs' & Hok').
    exists (evs ++ evs'). rewrite Hevs', Hevs, app_assoc. split; [reflexivity|].
    rewrite forallb_app. now rewrite Hok, Hok'.
Qed.

Lemma emits_with_local {S A} (s0 : S) (c : L S A) :
  emitsL ok c -> emits ok (with_local s0 c).
Proof.
  intros Hc w. unfold with_local. destruct (Hc s0 w) as (evs & Hevs & Hok).
  destruct (c s0 w) as [[r s1] w1]. now exists evs.
Qed.

End Allowed.

End EmitsFacts.

Section NeverFacts.

Variable env : Env.

Lemma emits_connect (ok : Event -> bool) :
  (forall ev, connect_event ev = true -> ok ev = true) ->
  emits ok (connect env).
Proof.
  intros Hok. unfold connect.
  repeat first
    [ apply emits_ret | apply emits_raise | apply emits_get_conn
    | apply emits_put_driver
    | apply emits_log; now apply Hok
    | apply emits_new_driver; intros ?; now apply Hok
    | apply emits_verify; intros ?; now apply Hok
    | apply emits_bind; [|intros ?]
    | apply emits_try_except; [|intros ?]
    | match goal with
      | |- emits _ (if ?b then _ else _) => destruct b
      end ].
Qed.

(** X1. [connect()] creates a driver, verifies it and logs, and does
    nothing else: it never closes the driver that the connection held
    before, sends no query and does not sleep. *)
Theorem connect_never_closes : emits connect_event (connect env).
Proof. apply emits_connect. auto. Qed.

Lemma emits_driver (ok : Event -> bool) :
  (forall ev, connect_event ev = true -> ok ev = true) ->
  emits ok (driver env).
Proof.
  intros Hok. unfold driver. apply emits_bind; [apply emits_get_driver|].
  intros [h|]; [apply emits_ret|now apply emits_connect].
Qed.

Lemma emits_execute_query (ok : Event -> bool) (q : string) (p : option Row) :
  (forall ev, connect_event ev = true -> ok ev = true) ->
  (forall h, ok (EvRun h q (params_or_empty p)) = true) ->
  emits ok (execute_query env q p).
Proof.
  intros Hok Hq. unfold execute_query.
  apply emits_bind; [now apply emits_driver|].
  intros h. now apply emits_read.
Qed.

Lemma emits_execute_write (ok : Event -> bool) (q : string) (p : option Row) :
  (forall ev, connect_event ev = true -> ok ev = true) ->
  (forall h, ok (EvWrite h q (params_or_empty p)) = true) ->
  emits ok (execute_write env q p).
Proof.
  intros Hok Hq. unfold execute_write.
  apply emits_bind; [now apply emits_driver|].
  intros h. now apply emits_write.
Qed.

Lemma emits_getitem (ok : Event -> bool) (r : Row) (key : string) :
  emits ok (getitem r key).
Proof. unfold getitem. destruct (r !! key); [apply emits_ret|apply emits_raise]. Qed.

Lemma emits_first_or (ok : Event -> bool) (rows : list Row) (key : string) (d : Value) :
  emits ok (first_or rows key d).
Proof. destruct rows; [apply emits_ret|apply emits_getitem]. Qed.

Lemma emits_gt_zero (ok : Event -> bool) (v : Value) : emits ok (gt_zero v).
Proof. destruct v; simpl; first [apply emits_ret|apply emits_raise]. Qed.

Lemma connect_event_health ev : connect_event ev = true -> health_event ev = true.
Proof. now destruct ev. Qed.

Lemma emits_check_connectivity (ok : Event -> bool) :
  (forall ev, connect_event ev = true -> ok ev = true) ->
  emits ok (check_connectivity env).
Proof.
  intros Hok. unfold check_connectivity.
  apply emits_try_except.
  - apply emits_bind; [now apply emits_driver|]. intros h.
    apply emits_bind; [|intros ?; apply emits_ret].
    apply emits_verify. intros r. now apply Hok.
  - intros e. destruct (is_ServiceUnavailable e);
      [apply emits_ret|apply emits_raise].
Qed.

(** X2. [full_health_check()] only observes: besides creating and
    verifying a driver and logging, all it sends are reads of its five
    fixed queries; it never writes, never closes the driver and never
    sleeps. *)
Theorem full_health_check_only_observes :
  emits health_event (full_health_check env).
Proof.
  pose proof connect_event_health as Hc.
  assert (Hq : forall q p, string_mem q health_queries = true ->
                 emits health_event (execute_query env q p)).
  { intros q p Hin. apply emits_execute_query; auto. }
  unfold full_health_check.
  apply emits_with_local.
  apply emitsL_bind; [|intros ?; now apply emitsL_silent].
  apply emitsL_try_except.
  - apply emitsL_bind; [apply emitsL_lift; now apply emits_check_connectivity|].
    intros c. apply emitsL_bind; [now apply emitsL_silent|]. intros _.
    apply emitsL_bind; [now apply emitsL_silent|]. intros health.
    destruct (connected health); [|now apply emitsL_silent].
    apply emitsL_bind.
    { apply emitsL_lift. unfold check_apoc_available.
      apply emits_try_except.
      - apply emits_bind; [now apply Hq|]. intros [|r rows]; [apply emits_ret|].
        apply emits_bind; [apply emits_getitem|]. intros v. apply emits_gt_zero.
      - intros e. apply emits_bind; [now apply emits_log|].
        intros _. apply emits_ret. }
    intros a. apply emitsL_bind; [now apply emitsL_silent|]. intros _.
    apply emitsL_bind.
    { apply emitsL_lift. unfold get_version.
      apply emits_bind; [now apply Hq|]. intros rows. apply emits_first_or. }
    intros v. apply emitsL_bind; [now apply emitsL_silent|]. intros _.
    apply emitsL_bind; [|intros ?; now apply emitsL_silent].
    apply emitsL_lift. unfold get_database_stats, get_node_count,
      get_relationship_count.
    repeat first
      [ apply emits_ret | apply emits_first_or
      | apply Hq; reflexivity
      | apply emits_bind; [|intros ?] ].
  - intros e. apply emitsL_bind; [|intros ?; now apply emitsL_silent].
    apply emitsL_lift. now apply emits_log.
Qed.

Lemma connect_event_poll interval ev :
  connect_event ev = true -> poll_event interval ev = true.
Proof. now destruct ev. Qed.

(** X3. [wait_for_ready(timeout, interval)] sends no query at all: all
    it does is read the clock, check connectivity, log, and sleep for
    exactly [interval]; it never closes the driver. *)
Theorem wait_for_ready_only_polls (fuel : nat) (timeout interval : Z) :
  emits (poll_event interval) (wait_for_ready env fuel timeout interval).
Proof.
  unfold wait_for_ready.
  apply emits_bind; [now apply emits_time|]. intros start.
  induction fuel as [|fuel IH]; simpl.
  - apply emits_bind; [now apply emits_time|]. intros t.
    destruct (t - start <? timeout); [apply emits_ret|].
    apply emits_bind; [now apply emits_log|]. intros _. apply emits_ret.
  - apply emits_bind; [now apply emits_time|]. intros t.
    destruct (t - start <? timeout).
    + apply emits_bind.
      { apply emits_check_connectivity. apply connect_event_poll. }
      intros [|].
      * apply emits_bind; [now apply emits_log|]. intros _. apply emits_ret.
      * apply emits_bind; [now apply emits_time|]. intros t'.
        apply emits_bind; [now apply emits_log|]. intros _.
        apply emits_bind; [|intros _; exact IH].
        apply emits_sleep. simpl. apply Z.eqb_refl.
    + apply emits_bind; [now apply emits_log|]. intros _. apply emits_ret.
Qed.

Lemma connect_event_import clear ev :
  connect_event ev = true -> import_event clear ev = true.
Proof. now destruct ev. Qed.


Lemma connect_event_export ev :
  connect_event ev = true -> export_event ev = true.
Proof. now destruct ev. Qed.


End NeverFacts.

(** * Connecting lazily, and the scope of a connection *)

Section LazyFacts.

Variable env : Env.

Lemma connect_returns_stored (w w' : World) (h : Handle) :
  connect env w = (Return h, w') ->
  _driver (connection w') = Some h /\
  exists tr, trace w' = tr ++ [EvVerify h None; EvLog LInfo].
Proof.
  unfold connect, GraphDatabase_driver, driver_verify_connectivity.
  unfold_monad. simpl.
  destruct (graph_driver env (tick w) _ _ _) as [e|h0]; simpl.
  - destruct (is_ServiceUnavailable e); [|destruct (is_AuthError e)];
      simpl; discriminate.
  - destruct (verify_connectivity env (S (tick w)) h0) as [e|]; simpl.
    + destruct (is_ServiceUnavailable e); [|destruct (is_AuthError e)];
        simpl; discriminate.
    + intros [= <- <-]. simpl. split; [reflexivity|].
      eexists. rewrite <- app_assoc. reflexivity.
Qed.

(** X6. On a connection with no handle, [execute_query] and
    [execute_write] do what an explicit [connect()] followed by the same
    call does: same outcome, same handle, same trace. *)
Theorem lazy_connect_is_connect (q : string) (p : option Row) (w : World) :
  _driver (connection w) = None ->
  execute_query env q p w = (connect env ;; execute_query env q p) w /\
  execute_write env q p w = (connect env ;; execute_write env q p) w.
Proof.
  intros Hnone.
  unfold execute_query, execute_write, driver, get_driver, bind.
  rewrite Hnone.
  destruct (connect env w) as [[h|e] w1] eqn:Hc; [|split; reflexivity].
  destruct (connect_returns_stored w w1 h Hc) as [-> _]. split; reflexivity.
Qed.

Lemma close_returns (w : World) :
  exists w',
    close env w = (Return tt, w') /\
    _driver (connection w') = None /\
    trace w' = trace w ++
      match _driver (connection w) with
      | Some h => [EvClose h; EvLog LInfo]
      | None => []
      end.
Proof.
  unfold close, driver_close. unfold_monad.
  destruct (_driver (connection w)) as [h|] eqn:Hd; simpl.
  - eexists. split; [reflexivity|]. simpl. split; [reflexivity|].
    now rewrite <- app_assoc.
  - exists w. split; [reflexivity|]. split; [exact Hd|].
    now rewrite app_nil_r.
Qed.

(** X7. [with connection: body]: when [__enter__] raises, the body does
    not run and the driver is not closed; otherwise the statement ends as
    the body ended, exception included, and after it the connection has
    no handle: the handle that the body left was closed. *)
Theorem with_connection_closes {A} (body : M A) (w : World) :
  match connect env w with
  | (Raise e, w1) => with_connection env body w = (Raise e, w1)
  | (Return _, w1) =>
      let w2 := snd (body w1) in
      let w3 := snd (with_connection env body w) in
      fst (with_connection env body w) = fst (body w1) /\
      _driver (connection w3) = None /\
      trace w3 = trace w2 ++
        match _driver (connection w2) with
        | Some h => [EvClose h; EvLog LInfo]
        | None => []
        end
  end.
Proof.
  destruct (connect env w) as [[h|e] w1] eqn:Hc;
    unfold with_connection, __enter__, __exit__, bind, ret; rewrite Hc;
    [|reflexivity].
  destruct (body w1) as [r w2]. simpl.
  destruct (close_returns w2) as (w3 & -> & Hnone & Htr). simpl. auto.
Qed.

Lemma check_connectivity_true (w w' : World) :
  check_connectivity env w = (Return true, w') ->
  exists h tr,
    _driver (connection w') = Some h /\
    trace w' = tr ++ [EvVerify h None].
Proof.
  unfold check_connectivity, driver, get_driver.
  unfold try_except, bind at 1 2.
  destruct (_driver (connection w)) as [h|] eqn:Hd.
  - unfold ret at 1. unfold driver_verify_connectivity, bind, ret.
    destruct (verify_connectivity env (tick w) h) as [e|]; simpl.
    + destruct (is_ServiceUnavailable e); discriminate.
    + intros [= <-]. simpl. eauto.
  - destruct (connect env w) as [[h|e] w1] eqn:Hc.
    + destruct (connect_returns_stored w w1 h Hc) as [Hst _].
      unfold driver_verify_connectivity, bind, ret.
      destruct (verify_connectivity env (tick w1) h) as [e|]; simpl.
      * destruct (is_ServiceUnavailable e); discriminate.
      * intros [= <-]. simpl. eauto.
    + destruct (is_ServiceUnavailable e); discriminate.
Qed.

(** X8. When [check_connectivity()] returns true, the connection holds a
    handle, and the last verification of that handle succeeded. *)
Theorem check_connectivity_true_verified (w w' : World) :
  check_connectivity env w = (Return true, w') ->
  exists h, _driver (connection w') = Some h /\ handle_verified w' = true.
Proof.
  intros Hc. destruct (check_connectivity_true w w' Hc) as (h & tr & Hd & Htr).
  exists h. split; [exact Hd|].
  unfold handle_verified. rewrite Hd, Htr, last_verify_app. simpl.
  now rewrite Nat.eqb_refl.
Qed.

End LazyFacts.

(** * Results and their shape *)

Section ShapeFacts.

Variable env : Env.

(** X9. [check_apoc_available()] never raises, and it returns true only
    when the query gave at least one row whose first row has a column
    [count] that is a number above zero or [True]; a failed query, no
    row, a missing column or a value that cannot be compared give
    false. *)
Theorem check_apoc_available_positive (w : World) :
  fst (check_apoc_available env w) =
  Return
    match execute_query env
            "CALL apoc.help('version') YIELD name RETURN count(name) as count"
            None w with
    | (Return (r :: _), _) =>
        match r !! "count" with
        | Some v => is_positive v
        | None => false
        end
    | _ => false
    end.
Proof.
  unfold check_apoc_available. unfold_monad.
  destruct (execute_query env _ None w) as [[[|r rows]|e] w1]; try reflexivity.
  unfold getitem. destruct (r !! "count") as [v|]; unfold_monad; [|reflexivity].
  now destruct v.
Qed.

(** X10. When [get_database_stats()] returns, the dict has exactly the
    keys [node_count], [relationship_count] and [labels]. *)
Theorem get_database_stats_keys (w w' : World) (s : gmap string Value) :
  get_database_stats env w = (Return s, w') ->
  dom s = {[ "node_count"; "relationship_count"; "labels" ]}.
Proof.
  unfold get_database_stats. unfold_monad.
  destruct (get_node_count env w) as [[n|e] w1]; [|discriminate].
  destruct (get_relationship_count env w1) as [[m|e] w2]; [|discriminate].
  destruct (execute_query env _ None w2) as [[rows|e] w3]; [|discriminate].
  destruct (first_or rows "labels" (VList []) w3) as [[l|e] w4]; [|discriminate].
  intros [= <- <-]. rewrite !dom_insert_L, dom_empty_L. set_solver.
Qed.

(** X11. When [import_from_graphml] returns, the dict has exactly the
    keys [nodes], [relationships] and [time_ms], with or without rows in
    the answer. *)
Theorem import_stats_keys
    (filepath : string) (clear : bool) (w w' : World) (s : gmap string Value) :
  import_from_graphml env filepath clear w = (Return s, w') ->
  dom s = {[ "nodes"; "relationships"; "time_ms" ]}.
Proof.
  assert (Htail : forall w1 : World,
    match execute_query env (import_query (basename filepath)) None w1 with
    | (Return [], w2) => (Return zero_stats, w2)
    | (Return (r :: _), w2) =>
        match getitem r "nodes" w2 with
        | (Return n, w3) =>
            match getitem r "relationships" w3 with
            | (Return m, w4) =>
                match getitem r "time" w4 with
                | (Return t, w5) =>
                    (Return (<["nodes" := n]> (<["relationships" := m]>
                               (<["time_ms" := t]> ∅))),
                     record (EvLog LInfo) w5)
                | (Raise e, w5) => (Raise e, record (EvLog LError) w5)
                end
            | (Raise e, w4) => (Raise e, record (EvLog LError) w4)
            end
        | (Raise e, w3) => (Raise e, record (EvLog LError) w3)
        end
    | (Raise e, w2) => (Raise e, record (EvLog LError) w2)
    end = (Return s, w') ->
    dom s = {[ "nodes"; "relationships"; "time_ms" ]}).
  { intros w1.
    destruct (execute_query env _ None w1) as [[[|r rows]|e] w2];
      [| |discriminate].
    - intros [= <- <-]. unfold zero_stats.
      rewrite !dom_insert_L, dom_empty_L. set_solver.
    - destruct (getitem r "nodes" w2) as [[n|e] w3]; [|discriminate].
      destruct (getitem r "relationships" w3) as [[m|e] w4]; [|discriminate].
      destruct (getitem r "time" w4) as [[t|e] w5]; [|discriminate].
      intros [= <- <-]. rewrite !dom_insert_L, dom_empty_L. set_solver. }
  unfold import_from_graphml, os_path_exists. unfold_monad.
  destruct (negb (path_exists env filepath)); [discriminate|].
  destruct clear.
  - destruct (clear_database env (record (EvLog LWarning) w)) as [[[]|e] w1];
      [|discriminate].
    intros H. apply (Htail w1). revert H.
    destruct (execute_query env _ None w1) as [[[|r rows]|e] w2]; auto.
    destruct (getitem r "nodes" w2) as [[n|e] w3]; auto.
    destruct (getitem r "relationships" w3) as [[m|e] w4]; auto.
    destruct (getitem r "time" w4) as [[t|e] w5]; auto.
  - intros H. apply (Htail w). revert H.
    destruct (execute_query env _ None w) as [[[|r rows]|e] w2]; auto.
    destruct (getitem r "nodes" w2) as [[n|e] w3]; auto.
    destruct (getitem r "relationships" w3) as [[m|e] w4]; auto.
    destruct (getitem r "time" w4) as [[t|e] w5]; auto.
Qed.

(** X12. When [clear_database()] raises inside an import that asked for
    it, the import raises the same exception and sends no query of its
    own: the world is the one that [clear_database()] left. *)
Theorem import_stops_when_clear_fails
    (filepath : string) (w w1 : World) (e : Exc) :
  path_exists env filepath = true ->
  clear_database env (record (EvLog LWarning) w) = (Raise e, w1) ->
  import_from_graphml env filepath true w = (Raise e, w1) /\
  read_queries (trace w1) = read_queries (trace w).
Proof.
  intros Hex Hclear. split.
  - unfold import_from_graphml, os_path_exists. unfold_monad.
    rewrite Hex. simpl. now rewrite Hclear.
  - destruct (only_reads_clear_database env (fun _ => False)
                (record (EvLog LWarning) w)) as (qs & Hqs & HF).
    rewrite Hclear in Hqs. simpl in Hqs.
    destruct qs as [|q qs]; [|now inversion HF].
    rewrite Hqs, read_queries_app. simpl. now rewrite !app_nil_r.
Qed.


End ShapeFacts.

(** * File names without a stray extension *)

Section NameFacts.

Lemma append_cons (c : ascii) (s t : string) :
  String c s +:+ t = String c (s +:+ t).
Proof. reflexivity. Qed.

Lemma startswith_cons (a b : ascii) (p s : string) :
  startswith (String a p) (String b s)
  = if Ascii.eqb a b then startswith p s else false.
Proof. reflexivity. Qed.

Ltac straddle_step t :=
  let c := fresh "c" in
  destruct t as [|c t];
  [ intros _; reflexivity
  | rewrite append_cons, !startswith_cons;
    destruct (Ascii.eqb _ c); [|intros _; reflexivity] ].

Lemma startswith_graphml_straddle (t : string) :
  t <> EmptyString ->
  startswith ".graphml" t = false ->
  startswith ".graphml" (t +:+ ".graphml") = false.
Proof.
  intros Hne.
  destruct t as [|c t]; [contradiction|].
  rewrite append_cons, !startswith_cons.
  destruct (Ascii.eqb _ c); [|intros _; reflexivity].
  do 7 straddle_step t.
  discriminate.
Qed.

Lemma occurs_cons (p : string) (c : ascii) (s : string) :
  occurs p (String c s) = false ->
  startswith p (String c s) = false /\ occurs p s = false.
Proof. simpl. now intros [H1 H2]%orb_false_elim. Qed.

Lemma replace_clean (s : string) :
  occurs ".graphml" s = false -> filename_base_of s = s.
Proof.
  unfold filename_base_of, str_replace.
  induction s as [|c s IH]; [reflexivity|].
  intros [Hs Ho]%occurs_cons.
  change (replace_from ".graphml" "" 0 (String c s)) with
    (if startswith ".graphml" (String c s)
     then "" +:+ replace_from ".graphml" "" 7 s
     else String c (replace_from ".graphml" "" 0 s)).
  rewrite Hs. now rewrite (IH Ho).
Qed.

Lemma replace_clean_ext (s : string) :
  occurs ".graphml" s = false -> filename_base_of (s +:+ ".graphml") = s.
Proof.
  unfold filename_base_of, str_replace.
  induction s as [|c s IH]; [reflexivity|].
  intros Hocc. destruct (occurs_cons _ _ _ Hocc) as [Hs Ho].
  change (replace_from ".graphml" "" 0 (String c s +:+ ".graphml")) with
    (if startswith ".graphml" (String c s +:+ ".graphml")
     then "" +:+ replace_from ".graphml" "" 7 (s +:+ ".graphml")
     else String c (replace_from ".graphml" "" 0 (s +:+ ".graphml"))).
  rewrite (startswith_graphml_straddle (String c s)); [|discriminate|exact Hs].
  now rewrite (IH Ho).
Qed.

Variable env : Env.
Variable self : BackupManager.

Lemma export_by_base (f1 f2 : string) (include_types : bool) (w : World) :
  filename_base_of f1 = filename_base_of f2 ->
  export_to_graphml env self (Some f1) include_types w
  = export_to_graphml env self (Some f2) include_types w.
Proof.
  intros H. unfold export_to_graphml. unfold bind at 1 5. unfold ret at 1 3.
  cbv beta zeta. now rewrite H.
Qed.

Lemma export_returns_path (f p : string) (include_types : bool) (w w' : World) :
  export_to_graphml env self (Some f) include_types w = (Return p, w') ->
  p = path_join env (backup_dir self) (filename_base_of f +:+ ".graphml").
Proof.
  unfold export_to_graphml. unfold_monad.
  destruct (execute_query env _ None w) as [[[|r rows]|e] w1];
    [now intros [= <- _]| |discriminate].
  destruct (getitem r "nodes" w1) as [[n|e] w2]; [|discriminate].
  destruct (getitem r "relationships" w2) as [[m|e] w3]; [|discriminate].
  destruct (getitem r "time" w3) as [[t|e] w4]; [|discriminate].
  now intros [= <- _].
Qed.

Lemma only_reads_export (P : string -> Prop) (f : string) (include_types : bool) :
  P (export_query (filename_base_of f) include_types) ->
  only_reads P (export_to_graphml env self (Some f) include_types).
Proof.
  intros HP.
  assert (Heq : export_to_graphml env self (Some f) include_types =
    try_except
      (let* result := execute_query env
           (export_query (filename_base_of f) include_types) None in
       match result with
       | r :: _ =>
           getitem r "nodes" ;; getitem r "relationships" ;;
           getitem r "time" ;; log LInfo
       | [] => ret tt
       end ;;
       ret (path_join env (backup_dir self) (filename_base_of f +:+ ".graphml")))
      (fun e => log LError ;; raise e)) by reflexivity.
  rewrite Heq. apply only_reads_try_except.
  - apply only_reads_bind; [now apply only_reads_execute_query|].
    intros [|r rows]; (apply only_reads_bind; [|intros ?; apply only_reads_ret]).
    + apply only_reads_ret.
    + repeat first
        [ apply only_reads_getitem | apply only_reads_log
        | apply only_reads_bind; [|intros ?] ].
  - intros e. apply only_reads_bind; [apply only_reads_log|].
    intros _. apply only_reads_raise.
Qed.

(** X14. For a name [s] in which the text [.graphml] does not occur,
    exporting to [s] and exporting to [s.graphml] are the same call: the
    only read query sent is the export to [s.graphml], and a call that
    returns gives the path of [s.graphml] under the backup directory. *)
Theorem export_clean_name (s : string) (include_types : bool) (w : World) :
  occurs ".graphml" s = false ->
  filename_base_of (s +:+ ".graphml") = s /\
  export_to_graphml env self (Some (s +:+ ".graphml")) include_types w
    = export_to_graphml env self (Some s) include_types w /\
  only_reads (fun q => q = export_query s include_types)
    (export_to_graphml env self (Some s) include_types) /\
  (forall p w',
     export_to_graphml env self (Some s) include_types w = (Return p, w') ->
     p = path_join env (backup_dir self) (s +:+ ".graphml")).
Proof.
  intros Hocc.
  pose proof (replace_clean s Hocc) as Hs.
  pose proof (replace_clean_ext s Hocc) as Hext.
  split; [exact Hext|]. split; [|split].
  - apply export_by_base. now rewrite Hs, Hext.
  - apply only_reads_export. now rewrite Hs.
  - intros p w' Hret. rewrite (export_returns_path _ _ _ _ _ Hret).
    now rewrite Hs.
Qed.

(** X15. Without a file name, and with a timestamp in which the text
    [.graphml] does not occur, an export that returns gives the path of
    [neo4j_backup_<timestamp>.graphml] under the backup directory. *)
Theorem export_generated_name
    (include_types : bool) (w w' : World) (p : string) :
  occurs ".graphml" (strftime_now env (tick w)) = false ->
  export_to_graphml env self None include_types w = (Return p, w') ->
  p = path_join env (backup_dir self)
        ("neo4j_backup_" +:+ strftime_now env (tick w) +:+ ".graphml").
Proof.
  intros Hocc Hret.
  set (ts := strftime_now env (tick w)) in *.
  assert (Hname : export_to_graphml env self None include_types w =
    export_to_graphml env self (Some ("neo4j_backup_" +:+ ts +:+ ".graphml"))
      include_types (emit EvNow (op_delay env (tick w)) w)) by reflexivity.
  rewrite Hname in Hret.
  rewrite (export_returns_path _ _ _ _ _ Hret).
  assert (Hpre : occurs ".graphml" ("neo4j_backup_" +:+ ts) = false)
    by exact Hocc.
  pose proof (replace_clean_ext ("neo4j_backup_" +:+ ts) Hpre) as Hbase.
  change (("neo4j_backup_" +:+ ts) +:+ ".graphml")
    with ("neo4j_backup_" +:+ ts +:+ ".graphml") in Hbase.
  now rewrite Hbase.
Qed.

End NameFacts.

(** * The backup directory *)

Section DirectoryFacts.

Lemma insert_by_mtime_perm (x : DirEntry) (l : list DirEntry) :
  insert_by_mtime x l ≡ₚ x :: l.
Proof.
  induction l as [|y l IH]; [reflexivity|]. simpl.
  destruct (st_mtime x <=? st_mtime y); [reflexivity|].
  rewrite IH. apply Permutation_swap.
Qed.

Lemma sorted_by_mtime_perm (l : list DirEntry) : sorted_by_mtime l ≡ₚ l.
Proof.
  induction l as [|x l IH]; [reflexivity|]. simpl.
  now rewrite insert_by_mtime_perm, IH.
Qed.

Lemma insert_by_mtime_sorted (x : DirEntry) (l : list DirEntry) :
  StronglySorted mtime_le l -> StronglySorted mtime_le (insert_by_mtime x l).
Proof.
  induction l as [|y l IH]; intros Hs; simpl.
  - repeat constructor.
  - apply StronglySorted_inv in Hs as [Hl Hy].
    destruct (Z.leb_spec (st_mtime x) (st_mtime y)) as [Hle|Hgt].
    + constructor; [now constructor|]. constructor; [exact Hle|].
      eapply Forall_impl; [exact Hy|]. unfold mtime_le. intros z Hz. lia.
    + constructor; [now apply IH|].
      rewrite insert_by_mtime_perm. constructor; [|exact Hy].
      unfold mtime_le. lia.
Qed.

Lemma sorted_by_mtime_sorted (l : list DirEntry) :
  StronglySorted mtime_le (sorted_by_mtime l).
Proof.
  induction l as [|x l IH]; simpl; [constructor|].
  now apply insert_by_mtime_sorted.
Qed.

Lemma list_backups_elem (dir : list DirEntry) (e : DirEntry) :
  e ∈ list_backups dir <-> e ∈ dir /\ is_backup e.
Proof.
  unfold list_backups, glob_graphml.
  rewrite sorted_by_mtime_perm, list_elem_of_filter. unfold is_backup. tauto.
Qed.

Lemma sorted_last_greatest (l : list DirEntry) (e : DirEntry) :
  StronglySorted mtime_le l -> last l = Some e ->
  forall x, x ∈ l -> mtime_le x e.
Proof.
  induction 1 as [|a l Hs IH Ha]; intros Hlast x Hx; [inversion Hx|].
  destruct l as [|b l].
  - simpl in Hlast. injection Hlast as <-.
    apply list_elem_of_singleton in Hx as ->. unfold mtime_le. lia.
  - change (last (a :: b :: l)) with (last (b :: l)) in Hlast.
    apply elem_of_cons in Hx as [->|Hx]; [|now apply IH].
    rewrite Forall_forall in Ha. apply Ha.
    now apply last_Some_elem_of.
Qed.

(** X16. [list_backups()] gives exactly the entries of the directory
    whose name holds [.graphml], each as often as it is listed, in
    ascending order of modification time. *)
Theorem list_backups_sorted (dir : list DirEntry) :
  StronglySorted mtime_le (list_backups dir) /\
  list_backups dir ≡ₚ glob_graphml dir /\
  (forall e, e ∈ list_backups dir <-> e ∈ dir /\ is_backup e).
Proof.
  split; [apply sorted_by_mtime_sorted|].
  split; [apply sorted_by_mtime_perm|]. apply list_backups_elem.
Qed.

(** X17. The entry that [get_latest_backup()] returns is a backup of the
    directory, and no backup of the directory was modified after it. *)
Theorem get_latest_backup_newest (dir : list DirEntry) (e : DirEntry) :
  get_latest_backup dir = Some e ->
  e ∈ dir /\ is_backup e /\
  forall e', e' ∈ dir -> is_backup e' -> st_mtime e' <= st_mtime e.
Proof.
  unfold get_latest_backup. intros Hlast.
  pose proof (last_Some_elem_of _ _ Hlast) as Hin.
  apply list_backups_elem in Hin as [Hdir Hb].
  split; [exact Hdir|]. split; [exact Hb|].
  intros e' Hdir' Hb'.
  apply (sorted_last_greatest (list_backups dir) e
           (sorted_by_mtime_sorted _) Hlast).
  apply list_backups_elem. auto.
Qed.

(** X18. [get_latest_backup()] returns [None] exactly when no entry of
    the directory has [.graphml] in its name. *)
Theorem get_latest_backup_none (dir : list DirEntry) :
  get_latest_backup dir = None <-> forall e, e ∈ dir -> ~ is_backup e.
Proof.
  unfold get_latest_backup. split.
  - intros Hnone e Hdir Hb.
    assert (Hin : e ∈ list_backups dir) by (apply list_backups_elem; auto).
    destruct (list_backups dir) as [|x l] eqn:Hl; [inversion Hin|].
    assert (Hsome : is_Some (last (x :: l))) by (apply last_is_Some; discriminate).
    rewrite Hnone in Hsome. now destruct Hsome.
  - intros Hno. destruct (last (list_backups dir)) as [e|] eqn:Hlast; [|reflexivity].
    pose proof (last_Some_elem_of _ _ Hlast) as Hin.
    apply list_backups_elem in Hin as [Hdir Hb]. now destruct (Hno e Hdir).
Qed.

End DirectoryFacts.

(** * More on polling *)

Section MorePollingFacts.

Variable env : Env.

Lemma wait_loop_step (fuel : nat) (start timeout interval : Z) (w : World) :
  wait_loop env (S fuel) start timeout interval w =
  let t := now w + op_delay env (tick w) in
  let w1 := emit (EvTime t) (op_delay env (tick w)) w in
  if t - start <? timeout then
    match check_connectivity env w1 with
    | (Return true, w2) => (Return (Some true), record (EvLog LInfo) w2)
    | (Return false, w2) =>
        let t' := now w2 + op_delay env (tick w2) in
        let w3 := record (EvLog LDebug)
                    (emit (EvTime t') (op_delay env (tick w2)) w2) in
        if interval <? 0
        then (Raise (mkExc ValueError "sleep length must be non-negative"), w3)
        else wait_loop env fuel start timeout interval
               (emit (EvSleep interval) (sleep_delay env (tick w3) interval) w3)
    | (Raise e, w2) => (Raise e, w2)
    end
  else (Return (Some false), record (EvLog LError) w1).
Proof.
  simpl. unfold time_time at 1. unfold bind at 1. cbv zeta.
  destruct (_ <? timeout); [|reflexivity].
  unfold bind at 1.
  destruct (check_connectivity env _) as [[[|]|e] w2]; try reflexivity.
  unfold time_time at 1. unfold bind at 1. unfold log at 1. unfold bind at 1.
  unfold time_sleep at 1. unfold bind at 1.
  now destruct (interval <? 0).
Qed.

Lemma wait_loop_true (start timeout interval : Z) (fuel : nat) :
  forall w w',
    wait_loop env fuel start timeout interval w = (Return (Some true), w') ->
    exists h tr,
      _driver (connection w') = Some h /\
      trace w' = tr ++ [EvVerify h None; EvLog LInfo].
Proof.
  induction fuel as [|fuel IH]; intros w w'.
  - simpl. unfold time_time, log. unfold_monad.
    destruct (_ <? timeout); discriminate.
  - rewrite wait_loop_step. cbv zeta.
    destruct (_ <? timeout); [|discriminate].
    destruct (check_connectivity env _) as [[[|]|e] w2] eqn:Hc; [| |discriminate].
    + intros [= <-].
      destruct (check_connectivity_true env _ _ Hc) as (h & tr & Hd & Htr).
      exists h, tr. simpl. split; [exact Hd|]. rewrite Htr.
      now rewrite <- app_assoc.
    + destruct (interval <? 0); [discriminate|]. apply IH.
Qed.

(** X19. When [wait_for_ready] returns true, the last thing it did
    before logging was a verification that succeeded, and the connection
    holds the handle that was verified. *)
Theorem wait_for_ready_true_verified
    (fuel : nat) (timeout interval : Z) (w w' : World) :
  wait_for_ready env fuel timeout interval w = (Return (Some true), w') ->
  exists h tr,
    _driver (connection w') = Some h /\
    trace w' = tr ++ [EvVerify h None; EvLog LInfo] /\
    handle_verified w' = true.
Proof.
  unfold wait_for_ready, time_time. unfold bind at 1. intros Hrun.
  destruct (wait_loop_true _ _ _ _ _ _ Hrun) as (h & tr & Hd & Htr).
  exists h, tr. split; [exact Hd|]. split; [exact Htr|].
  unfold handle_verified. rewrite Hd, Htr, last_verify_app. simpl.
  now rewrite Nat.eqb_refl.
Qed.

(** X20. An exception of the first connectivity check, such as
    [AuthError], ends [wait_for_ready] at once: it is raised unchanged
    and there is no sleep and no further check. *)
Theorem wait_for_ready_raises_at_once
    (fuel : nat) (timeout interval start t : Z) (w w1 w2 w3 : World) (e : Exc) :
  time_time env w = (Return start, w1) ->
  time_time env w1 = (Return t, w2) ->
  t - start < timeout ->
  check_connectivity env w2 = (Raise e, w3) ->
  wait_for_ready env (S fuel) timeout interval w = (Raise e, w3).
Proof.
  intros H0 H1 Hlt Hc.
  unfold wait_for_ready. unfold bind at 1. rewrite H0.
  rewrite wait_loop_step. cbv zeta.
  unfold time_time in H1. injection H1 as <- <-.
  destruct (Z.ltb_spec (now w1 + op_delay env (tick w1) - start) timeout);
    [|lia].
  now rewrite Hc.
Qed.

(** X21. With a negative [interval], a first connectivity check that
    says false makes [wait_for_ready] raise [ValueError]: the loop never
    gets to a second check. *)
Theorem wait_for_ready_negative_interval
    (fuel : nat) (timeout interval start t : Z) (w w1 w2 w3 : World) :
  interval < 0 ->
  time_time env w = (Return start, w1) ->
  time_time env w1 = (Return t, w2) ->
  t - start < timeout ->
  check_connectivity env w2 = (Return false, w3) ->
  fst (wait_for_ready env (S fuel) timeout interval w)
    = Raise (mkExc ValueError "sleep length must be non-negative").
Proof.
  intros HI H0 H1 Hlt Hc.
  unfold wait_for_ready. unfold bind at 1. rewrite H0.
  rewrite wait_loop_step. cbv zeta.
  unfold time_time in H1. injection H1 as <- <-.
  destruct (Z.ltb_spec (now w1 + op_delay env (tick w1) - start) timeout);
    [|lia].
  rewrite Hc.
  destruct (Z.ltb_spec interval 0); [reflexivity|lia].
Qed.

End MorePollingFacts.

(** * A stored handle, and clearing *)

Section HandleFacts.

Variable env : Env.

(** X22. [clear_database()] logs its warning before anything else, also
    before connecting, and after it the only thing it may send to the
    database is the write that deletes every node. *)
Theorem clear_database_warns_first (w : World) :
  exists evs,
    trace (snd (clear_database env w)) = trace w ++ EvLog LWarning :: evs /\
    forallb clear_event evs = true.
Proof.
  assert (Hrest : emits clear_event
            (execute_write env "MATCH (n) DETACH DELETE n" None ;; ret tt)).
  { apply emits_bind; [|intros ?; apply emits_ret].
    apply emits_execute_write; [|reflexivity]. now intros []. }
  destruct (Hrest (record (EvLog LWarning) w)) as (evs & Htr & Hok).
  exists evs. split; [|exact Hok].
  unfold clear_database, log. unfold bind at 1.
  rewrite Htr. simpl. now rewrite <- app_assoc.
Qed.

(** X23. A stored handle is used as it is: with one, [execute_query],
    [execute_write] and [check_connectivity] make exactly one call, on
    that handle, without creating or verifying a driver first, and leave
    the connection as it was. *)
Theorem stored_handle_used_as_is
    (h : Handle) (q : string) (p : option Row) (w : World) :
  _driver (connection w) = Some h ->
  (trace (snd (execute_query env q p w))
     = trace w ++ [EvRun h q (params_or_empty p)] /\
   connection (snd (execute_query env q p w)) = connection w) /\
  (trace (snd (execute_write env q p w))
     = trace w ++ [EvWrite h q (params_or_empty p)] /\
   connection (snd (execute_write env q p w)) = connection w) /\
  (trace (snd (check_connectivity env w))
     = trace w ++ [EvVerify h (verify_connectivity env (tick w) h)] /\
   connection (snd (check_connectivity env w)) = connection w).
Proof.
  intros Hd. repeat split.
  - unfold execute_query, driver, get_driver, session_run_read. unfold_monad.
    rewrite Hd. now destruct (session_run env (tick w) h q _).
  - unfold execute_query, driver, get_driver, session_run_read. unfold_monad.
    rewrite Hd. now destruct (session_run env (tick w) h q _).
  - unfold execute_write, driver, get_driver, session_run_write. unfold_monad.
    rewrite Hd. now destruct (session_execute_write env (tick w) h q _).
  - unfold execute_write, driver, get_driver, session_run_write. unfold_monad.
    rewrite Hd. now destruct (session_execute_write env (tick w) h q _).
  - unfold check_connectivity, driver, get_driver, driver_verify_connectivity.
    unfold_monad. rewrite Hd.
    destruct (verify_connectivity env (tick w) h) as [e|]; simpl; [|reflexivity].
    now destruct (is_ServiceUnavailable e).
  - unfold check_connectivity, driver, get_driver, driver_verify_connectivity.
    unfold_monad. rewrite Hd.
    destruct (verify_connectivity env (tick w) h) as [e|]; simpl; [|reflexivity].
    now destruct (is_ServiceUnavailable e).
Qed.

End HandleFacts.

(** * The file named by an import *)

Section BasenameFacts.

Lemma rfind_slash_shift (p : string) :
  forall i last,
    rfind_slash p i last =
    if has_slash p then i + rfind_slash p 0 (-1) else last.
Proof.
  induction p as [|c p IH]; intros i last; [reflexivity|].
  cbn [rfind_slash has_slash].
  rewrite (IH (i + 1)), (IH (0 + 1)).
  destruct (has_slash p); [rewrite orb_true_r; lia|].
  rewrite orb_false_r. destruct (Ascii.eqb c "/"); lia.
Qed.

Lemma rfind_slash_lower (p : string) : -1 <= rfind_slash p 0 (-1).
Proof.
  induction p as [|c p IH]; [simpl; lia|].
  cbn [rfind_slash]. rewrite rfind_slash_shift.
  destruct (has_slash p); [lia|]. destruct (Ascii.eqb c "/"); lia.
Qed.

Lemma substring_all (s : string) : String.substring 0 (String.length s) s = s.
Proof. induction s as [|c s IH]; [reflexivity|]. simpl. now rewrite IH. Qed.

Lemma basename_after_last_slash (p : string) : basename p = after_last_slash p.
Proof.
  induction p as [|c p IH]; [reflexivity|].
  unfold basename in *. cbn [rfind_slash after_last_slash].
  rewrite rfind_slash_shift.
  pose proof (rfind_slash_lower p) as Hlow.
  destruct (has_slash p).
  - replace (Z.to_nat (0 + 1 + rfind_slash p 0 (-1) + 1))
      with (S (Z.to_nat (rfind_slash p 0 (-1) + 1))) by lia.
    cbn [String.length String.substring Nat.sub]. exact IH.
  - destruct (Ascii.eqb c "/").
    + change (Z.to_nat (0 + 1)) with 1%nat.
      cbn [String.length String.substring Nat.sub].
      rewrite Nat.sub_0_r. apply substring_all.
    + change (Z.to_nat (-1 + 1)) with 0%nat.
      rewrite Nat.sub_0_r. apply substring_all.
Qed.

Lemma after_last_slash_clean (p : string) :
  has_slash (after_last_slash p) = false /\
  exists d, p = d +:+ after_last_slash p.
Proof.
  induction p as [|c p [IH1 [d IH2]]]; [split; [reflexivity|now exists ""]|].
  cbn [after_last_slash].
  destruct (has_slash p) eqn:Hs.
  - split; [exact IH1|]. exists (String c d). rewrite append_cons.
    f_equal. exact IH2.
  - destruct (Ascii.eqb c "/") eqn:Hc.
    + split; [exact Hs|]. now exists (String c "").
    + split; [|now exists ""]. cbn [has_slash]. now rewrite Hc, Hs.
Qed.

Variable env : Env.

(** X24. Whatever path it is given, the only read query that
    [import_from_graphml] sends names a file without any slash in it: the
    part of the path after its last slash. *)
Theorem import_names_no_directory (filepath : string) (clear : bool) :
  has_slash (basename filepath) = false /\
  (exists d, filepath = d +:+ basename filepath) /\
  only_reads (fun q => q = import_query (basename filepath))
    (import_from_graphml env filepath clear).
Proof.
  rewrite basename_after_last_slash.
  destruct (after_last_slash_clean filepath) as [Hclean Hsuffix].
  split; [exact Hclean|]. split; [exact Hsuffix|].
  apply only_reads_import. now rewrite basename_after_last_slash.
Qed.

End BasenameFacts.

(** * The further theorems at concrete inputs *)

(** a query on a fresh connection *)
Lemma lazy_connect_is_connect_witness :
  execute_query (ideal_env true []) "RETURN 1" None world0
    = (connect (ideal_env true []) ;;
       execute_query (ideal_env true []) "RETURN 1" None) world0 /\
  execute_write (ideal_env true []) "RETURN 1" None world0
    = (connect (ideal_env true []) ;;
       execute_write (ideal_env true []) "RETURN 1" None) world0.
Proof.
  apply (lazy_connect_is_connect (ideal_env true []) "RETURN 1" None world0).
  reflexivity.
Defined.

(** a connectivity check against a server that is up *)
Lemma check_connectivity_true_verified_witness :
  exists h,
    _driver (connection (snd (check_connectivity (ideal_env true []) world0)))
      = Some h /\
    handle_verified (snd (check_connectivity (ideal_env true []) world0)) = true.
Proof.
  apply (check_connectivity_true_verified (ideal_env true []) world0
           (snd (check_connectivity (ideal_env true []) world0))).
  reflexivity.
Defined.

(** the statistics of the scripted server *)
Lemma get_database_stats_keys_witness :
  exists s w',
    get_database_stats scripted_env world0 = (Return s, w') /\
    dom s = {[ "node_count"; "relationship_count"; "labels" ]}.
Proof.
  exists (<["node_count" := VInt 10]>
            (<["relationship_count" := VInt 5]>
               {["labels" := VList [VStr "Person"]]})),
         (snd (get_database_stats scripted_env world0)).
  assert (Hrun : get_database_stats scripted_env world0 =
    (Return (<["node_count" := VInt 10]>
               (<["relationship_count" := VInt 5]>
                  {["labels" := VList [VStr "Person"]]})),
     snd (get_database_stats scripted_env world0)))
    by (vm_compute; reflexivity).
  split; [exact Hrun|].
  exact (get_database_stats_keys scripted_env world0 _ _ Hrun).
Defined.

(** an import from the scripted server *)
Lemma import_stats_keys_witness :
  exists s w',
    import_from_graphml scripted_env "/fake/path/backup.graphml" false world0
      = (Return s, w') /\
    dom s = {[ "nodes"; "relationships"; "time_ms" ]}.
Proof.
  exists (<["nodes" := VInt 100]> (<["relationships" := VInt 50]>
            {["time_ms" := VInt 2000]})),
         (snd (import_from_graphml scripted_env "/fake/path/backup.graphml"
                 false world0)).
  assert (Hrun :
    import_from_graphml scripted_env "/fake/path/backup.graphml" false world0 =
    (Return (<["nodes" := VInt 100]> (<["relationships" := VInt 50]>
               {["time_ms" := VInt 2000]})),
     snd (import_from_graphml scripted_env "/fake/path/backup.graphml"
            false world0)))
    by (vm_compute; reflexivity).
  split; [exact Hrun|].
  exact (import_stats_keys scripted_env _ _ world0 _ _ Hrun).
Defined.

(** an import that clears first, against a server that is down *)
Lemma import_stops_when_clear_fails_witness :
  import_from_graphml (ideal_env false ["/data/backup.graphml"])
    "/data/backup.graphml" true world0
  = (Raise unavailable,
     snd (clear_database (ideal_env false ["/data/backup.graphml"])
            (record (EvLog LWarning) world0))) /\
  read_queries (trace
     (snd (clear_database (ideal_env false ["/data/backup.graphml"])
             (record (EvLog LWarning) world0))))
  = read_queries (trace world0).
Proof.
  apply (import_stops_when_clear_fails
           (ideal_env false ["/data/backup.graphml"])
           "/data/backup.graphml" world0).
  - reflexivity.
  - reflexivity.
Defined.


(** the name of the unit test, with and without its extension *)
Lemma export_clean_name_witness :
  filename_base_of ("test_backup" +:+ ".graphml") = "test_backup" /\
  export_to_graphml (ideal_env true []) (mkBackup "./backup")
    (Some ("test_backup" +:+ ".graphml")) true world0
  = export_to_graphml (ideal_env true []) (mkBackup "./backup")
    (Some "test_backup") true world0 /\
  only_reads (fun q => q = export_query "test_backup" true)
    (export_to_graphml (ideal_env true []) (mkBackup "./backup")
       (Some "test_backup") true) /\
  (forall p w',
     export_to_graphml (ideal_env true []) (mkBackup "./backup")
       (Some "test_backup") true world0 = (Return p, w') ->
     p = path_join (ideal_env true []) "./backup" ("test_backup" +:+ ".graphml")).
Proof.
  apply (export_clean_name (ideal_env true []) (mkBackup "./backup")
           "test_backup" true world0).
  reflexivity.
Defined.

(** an export without a name *)
Lemma export_generated_name_witness :
  "./backup/neo4j_backup_20251026_143000.graphml"
  = path_join (ideal_env true []) "./backup"
      ("neo4j_backup_" +:+ strftime_now (ideal_env true []) (tick world0)
       +:+ ".graphml").
Proof.
  apply (export_generated_name (ideal_env true []) (mkBackup "./backup") true
           world0
           (snd (export_to_graphml (ideal_env true []) (mkBackup "./backup")
                   None true world0))).
  - reflexivity.
  - vm_compute. reflexivity.
Defined.

(** the latest of three backups *)
Lemma get_latest_backup_newest_witness :
  mkEntry "b.graphml.bak" 7 ∈ some_dir /\
  is_backup (mkEntry "b.graphml.bak" 7) /\
  forall e', e' ∈ some_dir -> is_backup e' ->
    st_mtime e' <= st_mtime (mkEntry "b.graphml.bak" 7).
Proof.
  apply (get_latest_backup_newest some_dir (mkEntry "b.graphml.bak" 7)).
  reflexivity.
Defined.

(** polling a server that is up *)
Lemma wait_for_ready_true_verified_witness :
  exists h tr,
    _driver (connection (snd (wait_for_ready (ideal_env true []) 1 60 2 world0)))
      = Some h /\
    trace (snd (wait_for_ready (ideal_env true []) 1 60 2 world0))
      = tr ++ [EvVerify h None; EvLog LInfo] /\
    handle_verified (snd (wait_for_ready (ideal_env true []) 1 60 2 world0)) = true.
Proof.
  apply (wait_for_ready_true_verified (ideal_env true []) 1 60 2 world0
           (snd (wait_for_ready (ideal_env true []) 1 60 2 world0))).
  reflexivity.
Defined.

(** polling a server that rejects the credentials *)
Lemma wait_for_ready_raises_at_once_witness :
  wait_for_ready auth_env 1 60 2 world0
  = (Raise (mkExc AuthError "Auth failed"),
     snd (check_connectivity auth_env
            (snd (time_time auth_env (snd (time_time auth_env world0)))))).
Proof.
  apply (wait_for_ready_raises_at_once auth_env 0 60 2 0 0 world0
           (snd (time_time auth_env world0))
           (snd (time_time auth_env (snd (time_time auth_env world0))))).
  - reflexivity.
  - reflexivity.
  - lia.
  - reflexivity.
Defined.

(** polling with an interval of -1 *)
Lemma wait_for_ready_negative_interval_witness :
  fst (wait_for_ready (ideal_env false []) 1 60 (-1) world0)
  = Raise (mkExc ValueError "sleep length must be non-negative").
Proof.
  apply (wait_for_ready_negative_interval (ideal_env false []) 0 60 (-1) 0 0 world0
           (snd (time_time (ideal_env false []) world0))
           (snd (time_time (ideal_env false [])
                   (snd (time_time (ideal_env false []) world0))))
           (snd (check_connectivity (ideal_env false [])
                   (snd (time_time (ideal_env false [])
                           (snd (time_time (ideal_env false []) world0))))))).
  - lia.
  - reflexivity.
  - reflexivity.
  - lia.
  - reflexivity.
Defined.

(** a connection that holds a handle *)
Lemma stored_handle_used_as_is_witness :
  (trace (snd (execute_query (ideal_env true []) "RETURN 1" None world7))
     = trace world7 ++ [EvRun 7%nat "RETURN 1" (params_or_empty None)] /\
   connection (snd (execute_query (ideal_env true []) "RETURN 1" None world7))
     = connection world7) /\
  (trace (snd (execute_write (ideal_env true []) "RETURN 1" None world7))
     = trace world7 ++ [EvWrite 7%nat "RETURN 1" (params_or_empty None)] /\
   connection (snd (execute_write (ideal_env true []) "RETURN 1" None world7))
     = connection world7) /\
  (trace (snd (check_connectivity (ideal_env true []) world7))
     = trace world7 ++
       [EvVerify 7%nat (verify_connectivity (ideal_env true []) (tick world7) 7%nat)] /\
   connection (snd (check_connectivity (ideal_env true []) world7))
     = connection world7).
Proof.
  apply (stored_handle_used_as_is (ideal_env true []) 7%nat "RETURN 1" None world7).
  reflexivity.
Defined.
